(** * terraform-provider-arcane: the project deployment resource

    A shallow embedding of the deployment resource of the provider
    ([internal/provider/project_deployment_resource.go]), of the error
    classification of the API client ([internal/client], [IsNotFound]) and
    of the container fallback of the project status data source
    ([internal/provider/project_status_data_source.go]).

    Conventions.
    - Framework values ([types.String], [types.Bool], [types.Map]) are
      inductive types with one constructor per value state (null, unknown,
      known), the values the framework's constructors can build.
    - Go's [time.Duration] and the clock are integers counting nanoseconds.
    - Remote calls go through an oracle ([World]) that answers the n-th
      call of a run; every call and every sleep is appended to a log. *)

From Stdlib Require Import ZArith String Ascii List Bool Lia.
From stdpp Require Import gmap strings list fin_maps pretty.

Local Open Scope string_scope.
Local Open Scope list_scope.
Local Open Scope Z_scope.

(** ** Framework values (terraform-plugin-framework, [types/basetypes]) *)

Inductive tfString :=
| StringNull
| StringUnknown
| StringValue (value : string).

Inductive tfBool :=
| BoolNull
| BoolUnknown
| BoolValue (value : bool).

(** [triggers] is declared with [ElementType: types.StringType]: the
    elements of a known map are [types.String] values. *)
Inductive tfMap :=
| MapNull
| MapUnknown
| MapValue (elements : gmap string tfString).


(** [ValueString] is the empty string for a null or unknown value. *)
Definition ValueString (s : tfString) : string :=
  match s with StringValue v => v | _ => "" end.

(** [ValueBool] is [false] for a null or unknown value. *)
Definition ValueBool (b : tfBool) : bool :=
  match b with BoolValue v => v | _ => false end.




(** ** The resource model *)

Record ProjectDeploymentResourceModel := {
  ID : tfString;
  EnvironmentID : tfString;
  ProjectID : tfString;
  Pull : tfBool;
  ForceRecreate : tfBool;
  RemoveOrphans : tfBool;
  StopOnDelete : tfBool;
  Triggers : tfMap;
  WaitTimeout : tfString;
  Status : tfString;
  LastDeployedAt : tfString
}.



(** ** The plan modifier of [last_deployed_at] *)






(** ** Errors ([internal/client]) *)

(** Go error values: an [APIError] (by pointer), an error that wraps nothing
    ([errors.New], [fmt.Errorf] without [%w]), and [fmt.Errorf] with one
    [%w] operand, which keeps the formatted text and the wrapped error. *)
Inductive error :=
| APIError (StatusCode : Z) (Message Detail : string)
| errorString (s : string)
| wrapError (msg : string) (err : error).

(** The [Error] method of [APIError] *)
Definition APIError_Error (StatusCode : Z) (Message Detail : string) : string :=
  if negb (String.eqb Detail "") then
    "API error (status " +:+ pretty StatusCode +:+ "): " +:+ Message +:+ " - " +:+ Detail
  else if negb (String.eqb Message "") then
    "API error (status " +:+ pretty StatusCode +:+ "): " +:+ Message
  else "API error (status " +:+ pretty StatusCode +:+ ")".

Definition Error (e : error) : string :=
  match e with
  | APIError c m d => APIError_Error c m d
  | errorString s => s
  | wrapError msg _ => msg
  end.

Definition Unwrap (e : error) : option error :=
  match e with
  | wrapError _ err => Some err
  | _ => None
  end.

(** [errors.As(err, &apiErr)] for a target of type pointer to [APIError]:
    the first such error on the chain of wrapped errors. *)
Fixpoint As_APIError (err : error) : option (Z * string * string) :=
  match err with
  | APIError c m d => Some (c, m, d)
  | errorString _ => None
  | wrapError _ inner => As_APIError inner
  end.

(** [IsNotFound] *)
Definition IsNotFound (err : error) : bool :=
  match As_APIError err with
  | Some (StatusCode, _, _) => Z.eqb StatusCode 404
  | None => false
  end.

(** [context.Canceled] and [context.DeadlineExceeded] *)
Definition Canceled : error := errorString "context canceled".
Definition DeadlineExceeded : error := errorString "context deadline exceeded".

(** ** Client data ([internal/client]) *)

Record ProjectService := {
  Service_Name : string;
  Service_Status : string;
  Service_Image : string
}.

Record Project := {
  Project_ID : string;
  Project_Name : string;
  Project_Status : string;
  Project_Path : string;
  Project_Services : list ProjectService;
  Project_Labels : gmap string string;
  Project_EnvironmentID : string
}.

Record ProjectDeployRequest := {
  Req_Pull : bool;
  Req_ForceRecreate : bool;
  Req_RemoveOrphans : bool
}.

Record ContainerPort := {
  Port_HostPort : Z;
  Port_ContainerPort : Z;
  Port_Protocol : string
}.

Record ContainerDetail := {
  Container_ID : string;
  Container_Name : string;
  Container_Image : string;
  Container_Status : string;
  Container_Health : string;
  Container_Ports : list ContainerPort
}.

(** ** Remote calls, the clock and the log *)

(** The methods of [EnvironmentClient] the resource and the data source
    use: [GetProject] (GET .../projects/{id}), [DeployProject]
    (POST .../up), [RedeployProject] (POST .../redeploy), [StopProject]
    (POST .../down), [GetProjectContainers] (GET .../containers). *)
Inductive Call :=
| GetProjectCall (environmentID projectID : string)
| DeployProjectCall (environmentID projectID : string) (req : ProjectDeployRequest)
| RedeployProjectCall (environmentID projectID : string) (req : ProjectDeployRequest)
| StopProjectCall (environmentID projectID : string)
| GetProjectContainersCall (environmentID projectID : string).

(** What a run does besides computing: a remote call and the time it
    took, a completed wait on [time.After(d)], or a wait on
    [time.After(backoff)] that ended after [waited] because [ctx.Done()]
    fired. *)
Inductive Event :=
| Called (c : Call) (took : Z)
| Slept (d : Z)
| Interrupted (backoff waited : Z).

(** Each entry of the log carries the clock reading at which it began. *)
Record Run := {
  clock : Z;
  log : list (Z * Event)
}.

(** The backend and the network as one run observes them: the answer to
    the [n]-th remote call of the run and the time that call takes, and
    the case [select] picks when both of its channels are ready. *)
Record World := {
  answerProject : nat → string → string → Project + error;
  answerAction : nat → Call → option error;
  answerContainers : nat → string → string → list ContainerDetail + error;
  latency : nat → N;
  selectTie : bool
}.

(** The calling context: when it is cancelled, if ever, and the error
    [ctx.Err()] reports from then on. *)
Record Context := {
  doneAt : option Z;
  ctxErr : error
}.

Definition isCall (e : Z * Event) : bool :=
  match e.2 with Called _ _ => true | _ => false end.

(** The calls of a log, in order. *)
Fixpoint callsOf (l : list (Z * Event)) : list Call :=
  match l with
  | [] => []
  | (_, Called c _) :: l' => c :: callsOf l'
  | _ :: l' => callsOf l'
  end.

(** The completed sleeps of a log, in order. *)
Fixpoint sleepsOf (l : list (Z * Event)) : list Z :=
  match l with
  | [] => []
  | (_, Slept d) :: l' => d :: sleepsOf l'
  | _ :: l' => sleepsOf l'
  end.

Definition ncalls (r : Run) : nat := length (callsOf (log r)).

Definition totalSlept (l : list (Z * Event)) : Z := fold_right Z.add 0 (sleepsOf l).

(** Time spent inside remote calls. *)
Fixpoint timeInCalls (l : list (Z * Event)) : Z :=
  match l with
  | [] => 0
  | (_, Called _ took) :: l' => took + timeInCalls l'
  | _ :: l' => timeInCalls l'
  end.

(** Issue a remote call: it is logged, the clock advances by its
    latency; the result is the index of the call in the run. *)
Definition remote (w : World) (c : Call) (r : Run) : nat * Run :=
  let n := ncalls r in
  let took := Z.of_N (latency w n) in
  (n, {| clock := clock r + took; log := log r ++ [(clock r, Called c took)] |}).

Definition GetProject (w : World) (environmentID projectID : string) (r : Run)
    : (Project + error) * Run :=
  let '(n, r') := remote w (GetProjectCall environmentID projectID) r in
  (answerProject w n environmentID projectID, r').

Definition DeployProject (w : World) (environmentID projectID : string)
    (req : ProjectDeployRequest) (r : Run) : option error * Run :=
  let c := DeployProjectCall environmentID projectID req in
  let '(n, r') := remote w c r in
  (answerAction w n c, r').

Definition RedeployProject (w : World) (environmentID projectID : string)
    (req : ProjectDeployRequest) (r : Run) : option error * Run :=
  let c := RedeployProjectCall environmentID projectID req in
  let '(n, r') := remote w c r in
  (answerAction w n c, r').

Definition StopProject (w : World) (environmentID projectID : string) (r : Run)
    : option error * Run :=
  let c := StopProjectCall environmentID projectID in
  let '(n, r') := remote w c r in
  (answerAction w n c, r').

Definition GetProjectContainers (w : World) (environmentID projectID : string) (r : Run)
    : (list ContainerDetail + error) * Run :=
  let '(n, r') := remote w (GetProjectContainersCall environmentID projectID) r in
  (answerContainers w n environmentID projectID, r').

(** [select { case <-ctx.Done(): ...; case <-time.After(backoff): }]
    entered at the current clock. The context wins when it is cancelled
    before the timer is due (at once when it is cancelled already); when
    both become ready at the same instant the runtime picks either, and
    [selectTie] says which. The result is [true] when [ctx.Done()] was
    taken. *)
Definition selectDoneOrAfter (w : World) (ctx : Context) (backoff : Z) (r : Run)
    : bool * Run :=
  let t := clock r in
  let slept := (false, {| clock := t + backoff; log := log r ++ [(t, Slept backoff)] |}) in
  match doneAt ctx with
  | Some c =>
      if (c <? t + backoff) || ((c =? t + backoff) && selectTie w) then
        (true, {| clock := Z.max t c; log := log r ++ [(t, Interrupted backoff (Z.max t c - t))] |})
      else slept
  | None => slept
  end.

(** ** Durations *)

Definition Second : Z := 1000000000.
Definition Minute : Z := 60 * Second.

(** ** Diagnostics *)

(** [resp.Diagnostics.AddError(summary, detail)]; the resource adds no
    warnings, so a response has an error exactly when the list is not
    empty. *)
Record Diagnostic := {
  Summary : string;
  Detail : string
}.

Definition AddError (summary detail : string) : Diagnostic :=
  {| Summary := summary; Detail := detail |}.

Definition HasError (diags : list Diagnostic) : bool :=
  match diags with [] => false | _ => true end.

(** ** The composite identifier and its import *)

(** [fmt.Sprintf("%s/%s", environmentID, projectID)] *)
Definition compositeID (environmentID projectID : string) : string :=
  environmentID +:+ "/" +:+ projectID.

(** [strings.Cut] for a one-byte separator: the text before and after its
    first occurrence. *)
Fixpoint Cut (s : string) (sep : ascii) : option (string * string) :=
  match s with
  | EmptyString => None
  | String c s' =>
      if Ascii.eqb c sep then Some (EmptyString, s')
      else match Cut s' sep with
           | Some (before, after) => Some (String c before, after)
           | None => None
           end
  end.

(** The loop of [strings.SplitN]: at most [n] cuts, the rest of the text
    is the last part. *)
Fixpoint splitLoop (n : nat) (s : string) (sep : ascii) : list string :=
  match n with
  | O => [s]
  | S n' =>
      match Cut s sep with
      | Some (before, after) => before :: splitLoop n' after sep
      | None => [s]
      end
  end.

(** [strings.SplitN(s, sep, n)] for a one-byte separator and [n >= 0]:
    nothing for [n = 0], else at most [n] parts, [n] clamped to
    [len(s) + 1]. *)
Definition SplitN (s : string) (sep : ascii) (n : nat) : list string :=
  match n with
  | O => []
  | S _ => splitLoop (Nat.min n (String.length s + 1) - 1) s sep
  end.

(** [ImportState]: the diagnostics, and the attributes set on the
    imported state. *)
Definition ImportState (reqID : string) : list Diagnostic * list (string * string) :=
  let parts := SplitN reqID "/"%char 2 in
  match parts with
  | [part0; part1] =>
      if String.eqb part0 "" || String.eqb part1 "" then
        ([AddError "Invalid import ID"
            ("Expected format: environment_id/project_id, got: " +:+ reqID)], [])
      else
        ([], [("id", reqID); ("environment_id", part0); ("project_id", part1)])
  | _ =>
      ([AddError "Invalid import ID"
          ("Expected format: environment_id/project_id, got: " +:+ reqID)], [])
  end.

(** ** Destroy *)

(** [Delete]: the diagnostics of the response and the run after it. With
    no error diagnostic the framework drops the record from the state. *)
Definition Delete (w : World) (data : ProjectDeploymentResourceModel) (r : Run)
    : list Diagnostic * Run :=
  if ValueBool (StopOnDelete data) then
    let environmentID := ValueString (EnvironmentID data) in
    let '(err, r1) := StopProject w environmentID (ValueString (ProjectID data)) r in
    match err with
    | Some e =>
        if negb (IsNotFound e) then
          ([AddError "Failed to stop project" (Error e)], r1)
        else ([], r1)
    | None => ([], r1)
    end
  else ([], r).

(** ** The project status data source *)

Inductive tfInt64 :=
| Int64Null
| Int64Unknown
| Int64Value (value : Z).

Inductive tfList (A : Type) :=
| ListNull
| ListUnknown
| ListValue (elements : list A).

Arguments ListNull {A}.
Arguments ListUnknown {A}.
Arguments ListValue {A} elements.

(** An object of [containerPortObjectType]. *)
Record ContainerPortObject := {
  attr_host_port : tfInt64;
  attr_container_port : tfInt64;
  attr_protocol : tfString
}.

(** An object of [containerObjectType]. *)
Record ContainerObject := {
  attr_id : tfString;
  attr_name : tfString;
  attr_image : tfString;
  attr_status : tfString;
  attr_health : tfString;
  attr_ports : tfList ContainerPortObject
}.

Record ProjectStatusDataSourceModel := {
  DS_EnvironmentID : tfString;
  DS_ProjectID : tfString;
  DS_Name : tfString;
  DS_Status : tfString;
  DS_Path : tfString;
  DS_Containers : tfList ContainerObject
}.

(** The object built for one service on the fallback path. The
    framework's value constructors return no diagnostics for values of
    the declared attribute types, so they are total here. *)
Definition serviceObject (svc : ProjectService) : ContainerObject :=
  {| attr_id := StringValue "";
     attr_name := StringValue (Service_Name svc);
     attr_image := StringValue (Service_Image svc);
     attr_status := StringValue (Service_Status svc);
     attr_health := StringValue "";
     attr_ports := ListValue [] |}.

Definition portObject (p : ContainerPort) : ContainerPortObject :=
  {| attr_host_port := Int64Value (Port_HostPort p);
     attr_container_port := Int64Value (Port_ContainerPort p);
     attr_protocol := StringValue (Port_Protocol p) |}.

(** The object built for one container of the detailed response. *)
Definition containerObject (c : ContainerDetail) : ContainerObject :=
  let portsListVal :=
    if (0 <? length (Container_Ports c))%nat
    then ListValue (map portObject (Container_Ports c))
    else ListValue [] in
  let imageVal :=
    if negb (String.eqb (Container_Image c) "")
    then StringValue (Container_Image c) else StringValue "" in
  let healthVal :=
    if negb (String.eqb (Container_Health c) "")
    then StringValue (Container_Health c) else StringValue "" in
  {| attr_id := StringValue (Container_ID c);
     attr_name := StringValue (Container_Name c);
     attr_image := imageVal;
     attr_status := StringValue (Container_Status c);
     attr_health := healthVal;
     attr_ports := portsListVal |}.

(** The value [Read] gives [data.Containers], from the project and the
    outcome of [GetProjectContainers]. *)
Definition containersAttribute (project : Project)
    (res : list ContainerDetail + error) : tfList ContainerObject :=
  match res with
  | inr _ =>
      if (0 <? length (Project_Services project))%nat
      then ListValue (map serviceObject (Project_Services project))
      else ListNull
  | inl containers =>
      if (0 <? length containers)%nat
      then ListValue (map containerObject containers)
      else ListNull
  end.

(** [ProjectStatusDataSource.Read]: the diagnostics, the state written,
    and the run after it. *)
Definition ProjectStatusDataSource_Read (w : World) (data : ProjectStatusDataSourceModel)
    (r : Run) : list Diagnostic * option ProjectStatusDataSourceModel * Run :=
  let environmentID := ValueString (DS_EnvironmentID data) in
  let '(res, r1) := GetProject w environmentID (ValueString (DS_ProjectID data)) r in
  match res with
  | inr err => ([AddError "Failed to read project status" (Error err)], None, r1)
  | inl project =>
      let path :=
        if negb (String.eqb (Project_Path project) "")
        then StringValue (Project_Path project) else StringNull in
      let '(cres, r2) :=
        GetProjectContainers w environmentID (ValueString (DS_ProjectID data)) r1 in
      ([],
       Some {| DS_EnvironmentID := DS_EnvironmentID data;
               DS_ProjectID := DS_ProjectID data;
               DS_Name := StringValue (Project_Name project);
               DS_Status := StringValue (Project_Status project);
               DS_Path := path;
               DS_Containers := containersAttribute project cres |},
       r2)
  end.

(** ** The reachability wait *)

(** The update of [backoff] at the end of a round. *)
Definition nextBackoff (backoff : Z) : Z :=
  if backoff <? 30 * Second then
    let backoff := backoff * 2 in
    if backoff >? 30 * Second then 30 * Second else backoff
  else backoff.

(** The sleep of round [i]: 5s, 10s, 20s, 30s, 30s, ... *)
Definition backoffSeq (i : nat) : Z :=
  Z.min (5 * Second * 2 ^ Z.of_nat i) (30 * Second).

(** Rounds that are always enough for a wait with this timeout. *)
Definition enoughFuel (timeout : Z) : nat :=
  Z.to_nat (timeout / (5 * Second)) + 2.

Section GoRuntime.

(** Functions of Go's [time] package the resource calls:
    [time.ParseDuration], [Duration.String] and
    [Time.UTC().Format(time.RFC3339)] of a clock reading. *)
Variable ParseDuration : string → Z + error.
Variable Duration_String : Z → string.
Variable Format_RFC3339 : Z → string.

(** [fmt.Errorf("timed out waiting for agent after %s: %w", timeout, err)] *)
Definition timeoutError (timeout : Z) (err : error) : error :=
  wrapError
    ("timed out waiting for agent after " +:+ Duration_String timeout +:+ ": " +:+ Error err)
    err.

(** The [for] loop of [waitForAgent]; [fuel] bounds the rounds, [None] is
    a run cut short by it. The result is the returned error ([None] for
    nil) and the run after the return. *)
Fixpoint waitLoop (fuel : nat) (w : World) (ctx : Context)
    (environmentID projectID : string) (timeout deadline backoff : Z) (r : Run)
    : option (option error * Run) :=
  match fuel with
  | O => None
  | S fuel' =>
      let '(res, r1) := GetProject w environmentID projectID r in
      match res with
      | inl _ => Some (None, r1)
      | inr err =>
          if clock r1 >? deadline then Some (Some (timeoutError timeout err), r1)
          else
            let '(done, r2) := selectDoneOrAfter w ctx backoff r1 in
            if done then Some (Some (ctxErr ctx), r2)
            else
              waitLoop fuel' w ctx environmentID projectID timeout deadline
                (nextBackoff backoff) r2
      end
  end.

(** [waitForAgent] *)
Definition waitForAgent (fuel : nat) (w : World) (ctx : Context)
    (environmentID projectID : string) (timeout : Z) (r : Run)
    : option (option error * Run) :=
  let deadline := clock r + timeout in
  let backoff := 5 * Second in
  waitLoop fuel w ctx environmentID projectID timeout deadline backoff r.

(** [parseWaitTimeout] *)
Definition parseWaitTimeout (data : ProjectDeploymentResourceModel) : Z :=
  let timeoutStr := ValueString (WaitTimeout data) in
  if String.eqb timeoutStr "" then 2 * Minute
  else match ParseDuration timeoutStr with
       | inr _ => 2 * Minute
       | inl d => d
       end.

Definition deployRequest (data : ProjectDeploymentResourceModel) : ProjectDeployRequest :=
  {| Req_Pull := ValueBool (Pull data);
     Req_ForceRecreate := ValueBool (ForceRecreate data);
     Req_RemoveOrphans := ValueBool (RemoveOrphans data) |}.

(** [Create]: the diagnostics, the state written on success, and the run
    after it. *)
Definition Create (fuel : nat) (w : World) (ctx : Context)
    (data : ProjectDeploymentResourceModel) (r : Run)
    : option (list Diagnostic * option ProjectDeploymentResourceModel * Run) :=
  let environmentID := ValueString (EnvironmentID data) in
  let timeout := parseWaitTimeout data in
  match waitForAgent fuel w ctx environmentID (ValueString (ProjectID data)) timeout r with
  | None => None
  | Some (Some err, r1) => Some ([AddError "Agent not reachable" (Error err)], None, r1)
  | Some (None, r1) =>
      let deployReq := deployRequest data in
      let '(err, r2) := DeployProject w environmentID (ValueString (ProjectID data)) deployReq r1 in
      match err with
      | Some e => Some ([AddError "Failed to deploy project" (Error e)], None, r2)
      | None =>
          let '(res, r3) := GetProject w environmentID (ValueString (ProjectID data)) r2 in
          match res with
          | inr e => Some ([AddError "Failed to get project status" (Error e)], None, r3)
          | inl project =>
              Some ([],
                    Some {| ID := StringValue (compositeID (ValueString (EnvironmentID data))
                                                 (ValueString (ProjectID data)));
                            EnvironmentID := EnvironmentID data;
                            ProjectID := ProjectID data;
                            Pull := Pull data;
                            ForceRecreate := ForceRecreate data;
                            RemoveOrphans := RemoveOrphans data;
                            StopOnDelete := StopOnDelete data;
                            Triggers := Triggers data;
                            WaitTimeout := WaitTimeout data;
                            Status := StringValue (Project_Status project);
                            LastDeployedAt := StringValue (Format_RFC3339 (clock r3)) |},
                    r3)
          end
      end
  end.

(** [Update]: the planned values in [data]. *)
Definition Update (w : World) (data : ProjectDeploymentResourceModel) (r : Run)
    : list Diagnostic * option ProjectDeploymentResourceModel * Run :=
  let environmentID := ValueString (EnvironmentID data) in
  let deployReq := deployRequest data in
  let '(err, r1) := RedeployProject w environmentID (ValueString (ProjectID data)) deployReq r in
  match err with
  | Some e => ([AddError "Failed to redeploy project" (Error e)], None, r1)
  | None =>
      let '(res, r2) := GetProject w environmentID (ValueString (ProjectID data)) r1 in
      match res with
      | inr e => ([AddError "Failed to get project status" (Error e)], None, r2)
      | inl project =>
          ([],
           Some {| ID := ID data;
                   EnvironmentID := EnvironmentID data;
                   ProjectID := ProjectID data;
                   Pull := Pull data;
                   ForceRecreate := ForceRecreate data;
                   RemoveOrphans := RemoveOrphans data;
                   StopOnDelete := StopOnDelete data;
                   Triggers := Triggers data;
                   WaitTimeout := WaitTimeout data;
                   Status := StringValue (Project_Status project);
                   LastDeployedAt := StringValue (Format_RFC3339 (clock r2)) |},
           r2)
      end
  end.


(** The runs of the loop of [waitForAgent], by the number of sleeps they
    complete: the probe succeeds; the probe fails past the deadline; the
    probe fails and the wait is interrupted; the probe fails, the sleep
    completes and the loop goes round with the next backoff. *)
Inductive waitRun (w : World) (ctx : Context) (environmentID projectID : string)
    (timeout deadline : Z) : nat → Z → Run → option error → Run → Prop :=
| wr_ready backoff r p r1 :
    GetProject w environmentID projectID r = (inl p, r1) →
    waitRun w ctx environmentID projectID timeout deadline 0 backoff r None r1
| wr_timeout backoff r e r1 :
    GetProject w environmentID projectID r = (inr e, r1) →
    deadline < clock r1 →
    waitRun w ctx environmentID projectID timeout deadline 0 backoff r
      (Some (timeoutError timeout e)) r1
| wr_interrupted backoff r e r1 r2 :
    GetProject w environmentID projectID r = (inr e, r1) →
    clock r1 ≤ deadline →
    selectDoneOrAfter w ctx backoff r1 = (true, r2) →
    waitRun w ctx environmentID projectID timeout deadline 0 backoff r
      (Some (ctxErr ctx)) r2
| wr_retry k backoff r e r1 r2 res r' :
    GetProject w environmentID projectID r = (inr e, r1) →
    clock r1 ≤ deadline →
    selectDoneOrAfter w ctx backoff r1 = (false, r2) →
    waitRun w ctx environmentID projectID timeout deadline k (nextBackoff backoff) r2 res r' →
    waitRun w ctx environmentID projectID timeout deadline (S k) backoff r res r'.

(** The first [k] values of [backoff], from [backoff] on. *)
Fixpoint backoffsFrom (backoff : Z) (k : nat) : list Z :=
  match k with
  | O => []
  | S k' => backoff :: backoffsFrom (nextBackoff backoff) k'
  end.

(** The same spec with another trigger map. *)
Definition withTriggers (data : ProjectDeploymentResourceModel) (t : tfMap)
    : ProjectDeploymentResourceModel :=
  {| ID := ID data;
     EnvironmentID := EnvironmentID data;
     ProjectID := ProjectID data;
     Pull := Pull data;
     ForceRecreate := ForceRecreate data;
     RemoveOrphans := RemoveOrphans data;
     StopOnDelete := StopOnDelete data;
     Triggers := t;
     WaitTimeout := WaitTimeout data;
     Status := Status data;
     LastDeployedAt := LastDeployedAt data |}.

(** ** Sample inputs *)

(** [time.ParseDuration] on the texts the examples use; any other text
    is taken as invalid. *)
Definition sampleParseDuration (s : string) : Z + error :=
  if String.eqb s "1s" then inl (1 * Second)
  else if String.eqb s "30s" then inl (30 * Second)
  else if String.eqb s "3m" then inl (3 * Minute)
  else if String.eqb s "0" then inl 0
  else if String.eqb s "-5s" then inl (-5 * Second)
  else inr (errorString ("time: invalid duration " +:+ s)).

(** [Duration.String] on the durations the examples use. *)
Definition sampleDurationString (d : Z) : string :=
  if d =? 2 * Minute then "2m0s"
  else if d =? 3 * Minute then "3m0s"
  else pretty (d / Second) +:+ "s".

(** A wall clock that reads the same instant throughout. *)
Definition sampleFormatRFC3339 (t : Z) : string := "2026-02-20T10:00:00Z".

Definition startRun : Run := {| clock := 0; log := [] |}.

(** A context that is never cancelled, and one cancelled at [c]. *)
Definition background : Context := {| doneAt := None; ctxErr := Canceled |}.
Definition cancelledAt (c : Z) : Context := {| doneAt := Some c; ctxErr := Canceled |}.

Definition sampleProject : Project :=
  {| Project_ID := "proj-1";
     Project_Name := "api-service";
     Project_Status := "running";
     Project_Path := "/opt/stacks/api";
     Project_Services :=
       [{| Service_Name := "api"; Service_Status := "running"; Service_Image := "myapp:v1" |};
        {| Service_Name := "db"; Service_Status := "running"; Service_Image := "postgres:15" |}];
     Project_Labels := ∅;
     Project_EnvironmentID := "env-1" |}.

(** The agent answers the third probe; every call is instantaneous. *)
Definition readyOnThirdProbe : World :=
  {| answerProject := λ n _ _,
       if (n <? 2)%nat then inr (APIError 503 "agent offline" "") else inl sampleProject;
     answerAction := λ _ _, None;
     answerContainers := λ _ _ _, inl [];
     latency := λ _, 0%N;
     selectTie := false |}.

(** The agent is never reachable, and the project is absent. *)
Definition unreachableWorld : World :=
  {| answerProject := λ _ _ _, inr (APIError 503 "agent offline" "");
     answerAction := λ _ _, Some (APIError 404 "project not found" "");
     answerContainers := λ _ _ _, inr (errorString "request failed");
     latency := λ _, 0%N;
     selectTie := false |}.

(** The project is served, its container list is not. *)
Definition containersUnavailable : World :=
  {| answerProject := λ _ _ _, inl sampleProject;
     answerAction := λ _ _, None;
     answerContainers := λ _ _ _, inr (errorString "request failed");
     latency := λ _, 0%N;
     selectTie := false |}.

(** The desired spec of the examples: the [compose] trigger is at v2. *)
Definition sampleSpec : ProjectDeploymentResourceModel :=
  {| ID := StringUnknown;
     EnvironmentID := StringValue "env-1";
     ProjectID := StringValue "proj-1";
     Pull := BoolValue true;
     ForceRecreate := BoolValue false;
     RemoveOrphans := BoolValue false;
     StopOnDelete := BoolValue false;
     Triggers := MapValue {[ "compose" := StringValue "v2" ]};
     WaitTimeout := StringValue "3m";
     Status := StringUnknown;
     LastDeployedAt := StringUnknown |}.

(** The state of the same record after an earlier deployment, with the
    [compose] trigger at v1. *)
Definition samplePrevious : ProjectDeploymentResourceModel :=
  {| ID := StringValue "env-1/proj-1";
     EnvironmentID := StringValue "env-1";
     ProjectID := StringValue "proj-1";
     Pull := BoolValue true;
     ForceRecreate := BoolValue false;
     RemoveOrphans := BoolValue false;
     StopOnDelete := BoolValue false;
     Triggers := MapValue {[ "compose" := StringValue "v1" ]};
     WaitTimeout := StringValue "3m";
     Status := StringValue "running";
     LastDeployedAt := StringValue "2026-02-20T10:00:00Z" |}.

(** A record that asks for its containers to be stopped on destroy. *)
Definition sampleStopping : ProjectDeploymentResourceModel :=
  {| ID := StringValue "env-1/proj-1";
     EnvironmentID := StringValue "env-1";
     ProjectID := StringValue "proj-1";
     Pull := BoolValue false;
     ForceRecreate := BoolValue false;
     RemoveOrphans := BoolValue false;
     StopOnDelete := BoolValue true;
     Triggers := MapNull;
     WaitTimeout := StringValue "2m";
     Status := StringValue "running";
     LastDeployedAt := StringValue "2026-02-20T10:00:00Z" |}.


Definition sampleStatusConfig : ProjectStatusDataSourceModel :=
  {| DS_EnvironmentID := StringValue "env-1";
     DS_ProjectID := StringValue "proj-1";
     DS_Name := StringNull;
     DS_Status := StringNull;
     DS_Path := StringNull;
     DS_Containers := ListNull |}.

(** The run of a wait whose third probe is answered: probes at 0s, 5s
    and 15s, with sleeps of 5s and 10s between them. *)
Definition sampleAfterWait : Run :=
  {| clock := 15 * Second;
     log := [(0, Called (GetProjectCall "env-1" "proj-1") 0);
             (0, Slept (5 * Second));
             (5 * Second, Called (GetProjectCall "env-1" "proj-1") 0);
             (5 * Second, Slept (10 * Second));
             (15 * Second, Called (GetProjectCall "env-1" "proj-1") 0)] |}.

(** ** Reading the deployment record *)

(** What a response does to the stored state: nothing (the prior state
    stays), [RemoveResource], or [State.Set]. *)
Inductive StateChange :=
| StateKept
| StateRemoved
| StateSet (data : ProjectDeploymentResourceModel).

(** [ProjectDeploymentResource.Read] *)
Definition Read (w : World) (data : ProjectDeploymentResourceModel) (r : Run)
    : list Diagnostic * StateChange * Run :=
  let environmentID := ValueString (EnvironmentID data) in
  let '(res, r1) := GetProject w environmentID (ValueString (ProjectID data)) r in
  match res with
  | inr err =>
      if IsNotFound err then ([], StateRemoved, r1)
      else ([AddError "Failed to get project status" (Error err)], StateKept, r1)
  | inl project =>
      ([],
       StateSet {| ID := ID data;
                   EnvironmentID := EnvironmentID data;
                   ProjectID := ProjectID data;
                   Pull := Pull data;
                   ForceRecreate := ForceRecreate data;
                   RemoveOrphans := RemoveOrphans data;
                   StopOnDelete := StopOnDelete data;
                   Triggers := Triggers data;
                   WaitTimeout := WaitTimeout data;
                   Status := StringValue (Project_Status project);
                   LastDeployedAt := LastDeployedAt data |},
       r1)
  end.

(** ** Lookups by name ([internal/client]) *)

(** The loop of [GetProjectByName] over the listed projects. *)
Fixpoint findProjectByName (projects : list Project) (name : string) : option Project :=
  match projects with
  | [] => None
  | p :: rest =>
      if String.eqb (Project_Name p) name then Some p
      else findProjectByName rest name
  end.

(** [GetProjectByName], from what [ListProjects] returned. *)
Definition GetProjectByName (listed : list Project + error) (name : string)
    : Project + error :=
  match listed with
  | inr err => inr err
  | inl projects =>
      match findProjectByName projects name with
      | Some p => inl p
      | None => inr (APIError 404 "project not found" "")
      end
  end.

(** The inner loop of [GetContainerByName] over the containers of one
    project. *)
Fixpoint findContainerByName (containers : list ContainerDetail) (name : string)
    : option ContainerDetail :=
  match containers with
  | [] => None
  | c :: rest =>
      if String.eqb (Container_Name c) name then Some c
      else findContainerByName rest name
  end.

(** The outer loop of [GetContainerByName]: the containers of each
    project are fetched in turn; a project whose containers cannot be
    fetched is skipped. *)
Fixpoint searchProjects (w : World) (environmentID name : string)
    (projects : list Project) (r : Run) : option ContainerDetail * Run :=
  match projects with
  | [] => (None, r)
  | p :: rest =>
      let '(res, r1) := GetProjectContainers w environmentID (Project_ID p) r in
      match res with
      | inr _ => searchProjects w environmentID name rest r1
      | inl containers =>
          match findContainerByName containers name with
          | Some c => (Some c, r1)
          | None => searchProjects w environmentID name rest r1
          end
      end
  end.

(** [GetContainerByName], from what [ListProjects] returned and the run
    after that call. *)
Definition GetContainerByName (w : World) (environmentID name : string)
    (listed : list Project + error) (r : Run) : (ContainerDetail + error) * Run :=
  match listed with
  | inr err => (inr err, r)
  | inl projects =>
      match searchProjects w environmentID name projects r with
      | (Some c, r') => (inl c, r')
      | (None, r') => (inr (APIError 404 "container not found" ""), r')
      end
  end.

(** ** The client and its requests ([internal/client]) *)

Record Config := {
  Config_URL : string;
  Config_APIKey : string
}.

(** [HTTPClient] is kept as its timeout. *)
Record Client := {
  BaseURL : string;
  APIKey : string;
  HTTPClient_Timeout : Z
}.

(** [strings.TrimSuffix]: [s] without the trailing [suffix], or [s]
    itself when it does not end with it. *)
Fixpoint TrimSuffix (s suffix : string) : string :=
  if String.eqb s suffix then ""
  else match s with
       | EmptyString => ""
       | String c s' => String c (TrimSuffix s' suffix)
       end.

(** [New] *)
Definition New (cfg : Config) : Client + error :=
  let baseURL := TrimSuffix (Config_URL cfg) "/" in
  if String.eqb baseURL "" then inr (errorString "arcane URL is required")
  else inl {| BaseURL := baseURL;
              APIKey := Config_APIKey cfg;
              HTTPClient_Timeout := 120 * Second |}.

(** A [Request]; [Request_Result] says whether [Result] is set. *)
Record Request (Payload : Type) := {
  Request_Method : string;
  Request_Path : string;
  Request_Query : gmap string (list string);
  Request_Body : option Payload;
  Request_Result : bool
}.

Arguments Request_Method {Payload} _.
Arguments Request_Path {Payload} _.
Arguments Request_Query {Payload} _.
Arguments Request_Body {Payload} _.
Arguments Request_Result {Payload} _.

(** The HTTP request handed to the transport. *)
Record HTTPRequest := {
  HTTP_Method : string;
  HTTP_URL : string;
  HTTP_Body : option string;
  HTTP_Header : gmap string string
}.

(** The response of the transport: the status code, and what
    [io.ReadAll] makes of the body. *)
Record HTTPResponse := {
  HTTP_StatusCode : Z;
  HTTP_ReadAll : string + error
}.

Section Transport.

(** What [Do] calls outside the repository: [json.Marshal] of a body,
    [json.Unmarshal] into [Result] and into an [APIError] (its message
    and detail; the status code is not read from the body),
    [url.Values.Encode], the checks of [http.NewRequestWithContext], and
    the round trip of [HTTPClient.Do]. *)
Variables Payload Decoded : Type.
Variable json_Marshal : Payload → string + error.
Variable json_Unmarshal : string → Decoded + error.
Variable json_Unmarshal_APIError : string → (string * string) + error.
Variable Query_Encode : gmap string (list string) → string.
Variable NewRequestWithContext : string → string → option string → option error.
Variable HTTPClient_Do : HTTPRequest → HTTPResponse + error.

(** The first half of [Do]: the request that goes to the transport. *)
Definition buildRequest (c : Client) (req : Request Payload) : HTTPRequest + error :=
  let fullURL := BaseURL c +:+ Request_Path req in
  let fullURL :=
    if (0 <? size (Request_Query req))%nat
    then fullURL +:+ "?" +:+ Query_Encode (Request_Query req)
    else fullURL in
  let marshalled : option string + error :=
    match Request_Body req with
    | Some body =>
        match json_Marshal body with
        | inr err =>
            inr (wrapError ("failed to marshal request body: " +:+ Error err) err)
        | inl bodyBytes => inl (Some bodyBytes)
        end
    | None => inl None
    end in
  match marshalled with
  | inr err => inr err
  | inl bodyReader =>
      match NewRequestWithContext (Request_Method req) fullURL bodyReader with
      | Some err => inr (wrapError ("failed to create request: " +:+ Error err) err)
      | None =>
          let header : gmap string string := ∅ in
          let header := <["Content-Type" := "application/json"]> header in
          let header := <["Accept" := "application/json"]> header in
          let header :=
            if negb (String.eqb (APIKey c) "")
            then <["X-API-Key" := APIKey c]> header else header in
          inl {| HTTP_Method := Request_Method req;
                 HTTP_URL := fullURL;
                 HTTP_Body := bodyReader;
                 HTTP_Header := header |}
      end
  end.

(** The second half of [Do]: the error made of a response, and the value
    decoded into [Result]. *)
Definition handleResponse (req : Request Payload) (resp : HTTPResponse)
    : option error * option Decoded :=
  match HTTP_ReadAll resp with
  | inr err => (Some (wrapError ("failed to read response body: " +:+ Error err) err), None)
  | inl respBody =>
      if HTTP_StatusCode resp >=? 400 then
        match json_Unmarshal_APIError respBody with
        | inr _ =>
            (Some (errorString ("API error (status " +:+ pretty (HTTP_StatusCode resp)
                                +:+ "): " +:+ respBody)), None)
        | inl (message, detail) =>
            (Some (APIError (HTTP_StatusCode resp) message detail), None)
        end
      else if Request_Result req && (0 <? String.length respBody)%nat then
        match json_Unmarshal respBody with
        | inr err => (Some (wrapError ("failed to parse response: " +:+ Error err) err), None)
        | inl v => (None, Some v)
        end
      else (None, None)
  end.

(** [Client.Do] *)
Definition Do (c : Client) (req : Request Payload) : option error * option Decoded :=
  match buildRequest c req with
  | inr err => (Some err, None)
  | inl httpReq =>
      match HTTPClient_Do httpReq with
      | inr err => (Some (wrapError ("request failed: " +:+ Error err) err), None)
      | inl resp => handleResponse req resp
      end
  end.

End Transport.

(** ** Sample inputs for the client *)

Definition sampleClient : Client :=
  {| BaseURL := "http://arcane.local:8000";
     APIKey := "arc_sample";
     HTTPClient_Timeout := 120 * Second |}.

(** The request of [StopProject] for the sample record, with the path
    segments as they are. *)
Definition sampleStopRequest : Request string :=
  {| Request_Method := "POST";
     Request_Path := "/api/environments/env-1/projects/proj-1/down";
     Request_Query := ∅;
     Request_Body := None;
     Request_Result := false |}.

Definition sampleStopHTTPRequest : HTTPRequest :=
  {| HTTP_Method := "POST";
     HTTP_URL := "http://arcane.local:8000/api/environments/env-1/projects/proj-1/down";
     HTTP_Body := None;
     HTTP_Header :=
       <["X-API-Key" := "arc_sample"]>
         (<["Accept" := "application/json"]>
            (<["Content-Type" := "application/json"]> ∅)) |}.

(** Stand-ins for the JSON codec: a body that is already text, and error
    bodies that parse only when they are the text [not-found]. *)
Definition sampleMarshal (body : string) : string + error := inl body.
Definition sampleUnmarshal (body : string) : string + error := inl body.
Definition sampleUnmarshalAPIError (body : string) : (string * string) + error :=
  if String.eqb body "not-found" then inl ("project not found", "")
  else inr (errorString "invalid character in error body").
Definition sampleQueryEncode (q : gmap string (list string)) : string := "".
Definition sampleNewRequest (method url : string) (body : option string) : option error :=
  None.

(** A proxy in front of the backend that answers every request with its
    own 404 page. *)
Definition proxyNotFound (httpReq : HTTPRequest) : HTTPResponse + error :=
  inl {| HTTP_StatusCode := 404; HTTP_ReadAll := inl "404 page not found" |}.

Definition sampleProjects : list Project :=
  [sampleProject;
   {| Project_ID := "proj-2";
      Project_Name := "web";
      Project_Status := "stopped";
      Project_Path := "";
      Project_Services := [];
      Project_Labels := ∅;
      Project_EnvironmentID := "env-1" |}].

(** The state [Create] writes for the sample spec once the project is
    read as running. *)
Definition sampleCreated : ProjectDeploymentResourceModel :=
  {| ID := StringValue "env-1/proj-1";
     EnvironmentID := StringValue "env-1";
     ProjectID := StringValue "proj-1";
     Pull := BoolValue true;
     ForceRecreate := BoolValue false;
     RemoveOrphans := BoolValue false;
     StopOnDelete := BoolValue false;
     Triggers := MapValue {[ "compose" := StringValue "v2" ]};
     WaitTimeout := StringValue "3m";
     Status := StringValue "running";
     LastDeployedAt := StringValue "2026-02-20T10:00:00Z" |}.

(** ** Rounds of the reachability wait *)

(** The run once a probe issued from [r] has returned. *)
Definition afterProbe (w : World) (environmentID projectID : string) (r : Run) : Run :=
  (GetProject w environmentID projectID r).2.

(** The run at the start of round [i] of [waitForAgent], when each of
    the rounds before it probed, found the agent unreachable and slept
    its whole backoff. *)
Fixpoint afterRounds (w : World) (environmentID projectID : string) (i : nat) (r : Run)
    : Run :=
  match i with
  | O => r
  | S i' =>
      let r1 := afterProbe w environmentID projectID
                  (afterRounds w environmentID projectID i' r) in
      {| clock := clock r1 + backoffSeq i';
         log := log r1 ++ [(clock r1, Slept (backoffSeq i'))] |}
  end.

(** Round [i] of a wait started at [r] goes round again: its probe
    fails, the deadline has not passed when the probe returns, and the
    context is not cancelled by the time the sleep ends. *)
Definition roundRetries (w : World) (ctx : Context) (environmentID projectID : string)
    (deadline : Z) (r : Run) (i : nat) : Prop :=
  let r1 := afterProbe w environmentID projectID
              (afterRounds w environmentID projectID i r) in
  (∃ e, answerProject w (ncalls r + i) environmentID projectID = inr e)
  ∧ clock r1 ≤ deadline
  ∧ (∀ c, doneAt ctx = Some c → clock r1 + backoffSeq i < c).


(** ** Equality of framework values *)









(** ** C1: redeploy exactly on a change of triggers or options *)


(** ** Logs *)

Lemma callsOf_app (l1 l2 : list (Z * Event)) :
  callsOf (l1 ++ l2) = callsOf l1 ++ callsOf l2.
Proof.
  induction l1 as [|[t [c took|d|b d]] l1 IH]; simpl; [done| |done|done].
  by rewrite IH.
Qed.

Lemma sleepsOf_app (l1 l2 : list (Z * Event)) :
  sleepsOf (l1 ++ l2) = sleepsOf l1 ++ sleepsOf l2.
Proof.
  induction l1 as [|[t [c took|d|b d]] l1 IH]; simpl; [done|done| |done].
  by rewrite IH.
Qed.

Lemma timeInCalls_app (l1 l2 : list (Z * Event)) :
  timeInCalls (l1 ++ l2) = timeInCalls l1 + timeInCalls l2.
Proof.
  induction l1 as [|[t [c took|d|b d]] l1 IH]; simpl; [done| |done|done].
  rewrite IH. lia.
Qed.

Lemma totalSlept_app (l1 l2 : list (Z * Event)) :
  totalSlept (l1 ++ l2) = totalSlept l1 + totalSlept l2.
Proof.
  unfold totalSlept. rewrite sleepsOf_app.
  induction (sleepsOf l1) as [|d ds IH]; simpl; [done|]. rewrite IH. lia.
Qed.

Lemma totalSlept_called (l : list (Z * Event)) (t : Z) (c : Call) (took : Z) :
  totalSlept (l ++ [(t, Called c took)]) = totalSlept l.
Proof. rewrite totalSlept_app. unfold totalSlept at 2. simpl. lia. Qed.

Lemma totalSlept_slept (l : list (Z * Event)) (t d : Z) :
  totalSlept (l ++ [(t, Slept d)]) = totalSlept l + d.
Proof. rewrite totalSlept_app. unfold totalSlept at 2. simpl. lia. Qed.

Lemma totalSlept_interrupted (l : list (Z * Event)) (t b d : Z) :
  totalSlept (l ++ [(t, Interrupted b d)]) = totalSlept l.
Proof. rewrite totalSlept_app. unfold totalSlept at 2. simpl. lia. Qed.

Lemma timeInCalls_called (l : list (Z * Event)) (t : Z) (c : Call) (took : Z) :
  timeInCalls (l ++ [(t, Called c took)]) = timeInCalls l + took.
Proof. rewrite timeInCalls_app. simpl. lia. Qed.

Lemma timeInCalls_slept (l : list (Z * Event)) (t d : Z) :
  timeInCalls (l ++ [(t, Slept d)]) = timeInCalls l.
Proof. rewrite timeInCalls_app. simpl. lia. Qed.

(** ** Remote calls *)

Lemma GetProject_eq (w : World) (environmentID projectID : string) (r : Run) :
  GetProject w environmentID projectID r =
    (answerProject w (ncalls r) environmentID projectID,
     {| clock := clock r + Z.of_N (latency w (ncalls r));
        log := log r ++ [(clock r, Called (GetProjectCall environmentID projectID)
                                     (Z.of_N (latency w (ncalls r))))] |}).
Proof. reflexivity. Qed.

Lemma ncalls_called (r : Run) (t clk : Z) (c : Call) (took : Z) :
  ncalls {| clock := clk; log := log r ++ [(t, Called c took)] |} = S (ncalls r).
Proof.
  unfold ncalls. simpl. rewrite callsOf_app, length_app. simpl. lia.
Qed.

Lemma ncalls_not_called (r : Run) (clk : Z) (e : Z * Event) :
  isCall e = false →
  ncalls {| clock := clk; log := log r ++ [e] |} = ncalls r.
Proof.
  intros He. unfold ncalls. simpl. rewrite callsOf_app, length_app.
  destruct e as [t [c took|d|b d]]; simpl in *; [discriminate|lia|lia].
Qed.

(** The two ways out of the [select]. *)
Lemma select_after (w : World) (ctx : Context) (backoff : Z) (r r2 : Run) :
  selectDoneOrAfter w ctx backoff r = (false, r2) →
  r2 = {| clock := clock r + backoff; log := log r ++ [(clock r, Slept backoff)] |}
  ∧ (∀ c, doneAt ctx = Some c → clock r + backoff ≤ c).
Proof.
  unfold selectDoneOrAfter. destruct (doneAt ctx) as [c|].
  - destruct (Z.ltb_spec c (clock r + backoff)) as [Hlt|Hge]; simpl; [discriminate|].
    destruct ((c =? clock r + backoff) && selectTie w); [discriminate|].
    intros [= <-]. split; [done|]. intros c' [= <-]. lia.
  - intros [= <-]. split; [done|]. discriminate.
Qed.

Lemma select_done (w : World) (ctx : Context) (backoff : Z) (r r2 : Run) :
  selectDoneOrAfter w ctx backoff r = (true, r2) →
  ∃ c, doneAt ctx = Some c
       ∧ c ≤ clock r + backoff
       ∧ r2 = {| clock := Z.max (clock r) c;
                 log := log r ++ [(clock r, Interrupted backoff (Z.max (clock r) c - clock r))] |}.
Proof.
  unfold selectDoneOrAfter. destruct (doneAt ctx) as [c|]; [|discriminate].
  destruct (Z.ltb_spec c (clock r + backoff)) as [Hlt|Hge]; simpl.
  - intros [= <-]. exists c. split; [done|]. split; [lia|done].
  - destruct (Z.eqb_spec c (clock r + backoff)) as [Heq|Hne]; simpl; [|discriminate].
    destruct (selectTie w); [|discriminate].
    intros [= <-]. exists c. split; [done|]. split; [lia|done].
Qed.

(** A context cancelled before the timer is due always wins. *)
Lemma select_cancelled_early (w : World) (ctx : Context) (backoff c : Z) (r : Run) :
  doneAt ctx = Some c →
  c < clock r + backoff →
  selectDoneOrAfter w ctx backoff r =
    (true, {| clock := Z.max (clock r) c;
              log := log r ++ [(clock r, Interrupted backoff (Z.max (clock r) c - clock r))] |}).
Proof.
  intros Hc Hlt. unfold selectDoneOrAfter. rewrite Hc.
  destruct (Z.ltb_spec c (clock r + backoff)); [done|lia].
Qed.

Lemma select_never_cancelled (w : World) (ctx : Context) (backoff : Z) (r : Run) :
  doneAt ctx = None →
  selectDoneOrAfter w ctx backoff r =
    (false, {| clock := clock r + backoff; log := log r ++ [(clock r, Slept backoff)] |}).
Proof. intros Hc. unfold selectDoneOrAfter. by rewrite Hc. Qed.

(** ** The backoff sequence *)

Lemma backoffSeq_0 : backoffSeq 0 = 5 * Second.
Proof. reflexivity. Qed.

Lemma nextBackoff_backoffSeq (i : nat) : nextBackoff (backoffSeq i) = backoffSeq (S i).
Proof.
  unfold nextBackoff, backoffSeq.
  rewrite Nat2Z.inj_succ, Z.pow_succ_r by lia.
  assert (Hpos : 0 < 2 ^ Z.of_nat i) by (apply Z.pow_pos_nonneg; lia).
  unfold Second.
  destruct (Z.ltb_spec (Z.min (5 * 1000000000 * 2 ^ Z.of_nat i) (30 * 1000000000))
              (30 * 1000000000)) as [Hlt|Hge].
  - destruct (Z.gtb_spec (Z.min (5 * 1000000000 * 2 ^ Z.of_nat i) (30 * 1000000000) * 2)
                (30 * 1000000000)); lia.
  - lia.
Qed.

Lemma backoffsFrom_backoffSeq (k i : nat) :
  backoffsFrom (backoffSeq i) k = map backoffSeq (seq i k).
Proof.
  revert i. induction k as [|k IH]; intros i; simpl; [done|].
  by rewrite nextBackoff_backoffSeq, IH.
Qed.

Lemma nextBackoff_bounds (b : Z) :
  5 * Second ≤ b ≤ 30 * Second → 5 * Second ≤ nextBackoff b ≤ 30 * Second.
Proof.
  unfold nextBackoff, Second. intros Hb.
  destruct (Z.ltb_spec b (30 * 1000000000)); [|lia].
  destruct (Z.gtb_spec (b * 2) (30 * 1000000000)); lia.
Qed.

Lemma nextBackoff_nonneg (b : Z) : 0 ≤ b → 0 ≤ nextBackoff b.
Proof.
  unfold nextBackoff, Second. intros Hb.
  destruct (Z.ltb_spec b (30 * 1000000000)); [|lia].
  destruct (Z.gtb_spec (b * 2) (30 * 1000000000)); lia.
Qed.

Lemma nextBackoff_bounds_upper (b : Z) : b ≤ 30 * Second → nextBackoff b ≤ 30 * Second.
Proof.
  unfold nextBackoff, Second. intros Hb.
  destruct (Z.ltb_spec b (30 * 1000000000)); [|lia].
  destruct (Z.gtb_spec (b * 2) (30 * 1000000000)); lia.
Qed.

Section Wait.

Variables (w : World) (ctx : Context) (environmentID projectID : string).
Variables (timeout deadline : Z).

Local Abbreviation run := (waitRun w ctx environmentID projectID timeout deadline).
Local Abbreviation loop fuel :=
  (waitLoop fuel w ctx environmentID projectID timeout deadline).
Local Abbreviation probe := (GetProjectCall environmentID projectID).

(** Every run of the loop that returns is one of the runs of [waitRun]. *)
Lemma waitLoop_run (fuel : nat) (backoff : Z) (r : Run) (res : option error) (r' : Run) :
  loop fuel backoff r = Some (res, r') → ∃ k, run k backoff r res r'.
Proof.
  revert backoff r. induction fuel as [|fuel IH]; intros backoff r; [discriminate|].
  cbn [waitLoop].
  destruct (GetProject w environmentID projectID r) as [[p|e] r1] eqn:Hget.
  - intros [= <- <-]. exists 0%nat. by eapply wr_ready.
  - destruct (Z.gtb_spec (clock r1) deadline) as [Hgt|Hle].
    + intros [= <- <-]. exists 0%nat. eapply wr_timeout; [done|lia].
    + destruct (selectDoneOrAfter w ctx backoff r1) as [[] r2] eqn:Hsel.
      * intros [= <- <-]. exists 0%nat. by eapply wr_interrupted.
      * intros Hrec. destruct (IH _ _ Hrec) as [k Hk].
        exists (S k). by eapply wr_retry.
Qed.

(** The loop returns within [fuel] rounds when each round is worth five
    seconds of the time left to the deadline. *)
Lemma waitLoop_terminates (fuel : nat) (backoff : Z) (r : Run) :
  5 * Second ≤ backoff ≤ 30 * Second →
  deadline - clock r < (Z.of_nat fuel - 1) * (5 * Second) →
  (1 ≤ fuel)%nat →
  ∃ res r', loop fuel backoff r = Some (res, r').
Proof.
  revert backoff r. induction fuel as [|fuel IH]; intros backoff r Hb Hfuel Hpos; [lia|].
  cbn [waitLoop]. rewrite GetProject_eq.
  destruct (answerProject w (ncalls r) environmentID projectID) as [p|e]; [by eauto|].
  cbn [clock].
  destruct (Z.gtb_spec (clock r + Z.of_N (latency w (ncalls r))) deadline) as [Hgt|Hle];
    [by eauto|].
  destruct (selectDoneOrAfter w ctx backoff _) as [[] r2] eqn:Hsel; [by eauto|].
  apply select_after in Hsel as [-> _]. cbn [clock] in *.
  unfold Second in *.
  apply IH; [by apply nextBackoff_bounds | cbn [clock]; lia | lia].
Qed.

Lemma GetProject_inv (a : Project + error) (r r1 : Run) :
  GetProject w environmentID projectID r = (a, r1) →
  a = answerProject w (ncalls r) environmentID projectID
  ∧ clock r ≤ clock r1
  ∧ log r1 = log r ++ [(clock r, Called probe (clock r1 - clock r))]
  ∧ ncalls r1 = S (ncalls r).
Proof.
  rewrite GetProject_eq. intros [= <- <-]. cbn [clock log].
  split; [done|]. split; [lia|]. split.
  - repeat f_equal. lia.
  - apply ncalls_called.
Qed.

(** The log of a run only grows. *)
Lemma run_extends k backoff r res r' :
  run k backoff r res r' → ∃ Δ, log r' = log r ++ Δ.
Proof.
  induction 1 as [b r p r1 Hget|b r e r1 Hget Hdl|b r e r1 r2 Hget Hdl Hsel
                 |k b r e r1 r2 res r' Hget Hdl Hsel _ [Δ IH]].
  - apply GetProject_inv in Hget as (_ & _ & Hlog & _). eauto.
  - apply GetProject_inv in Hget as (_ & _ & Hlog & _). eauto.
  - apply GetProject_inv in Hget as (_ & _ & Hlog & _).
    apply select_done in Hsel as (c & _ & _ & ->). cbn [log].
    rewrite Hlog, <- app_assoc. eauto.
  - apply GetProject_inv in Hget as (_ & _ & Hlog & _).
    apply select_after in Hsel as [-> _]. cbn [log] in IH.
    rewrite IH, Hlog, <- !app_assoc. eauto.
Qed.

(** The sleeps of a run are the successive values of [backoff]. *)
Lemma run_sleeps k backoff r res r' :
  run k backoff r res r' →
  sleepsOf (log r') = sleepsOf (log r) ++ backoffsFrom backoff k.
Proof.
  induction 1 as [b r p r1 Hget|b r e r1 Hget Hdl|b r e r1 r2 Hget Hdl Hsel
                 |k b r e r1 r2 res r' Hget Hdl Hsel _ IH];
    apply GetProject_inv in Hget as (_ & _ & Hlog & _).
  - rewrite Hlog, sleepsOf_app. done.
  - rewrite Hlog, sleepsOf_app. done.
  - apply select_done in Hsel as (c & _ & _ & ->). cbn [log].
    rewrite Hlog, !sleepsOf_app. simpl. by rewrite !app_nil_r.
  - apply select_after in Hsel as [-> _]. cbn [log] in IH.
    rewrite IH, Hlog, !sleepsOf_app. simpl. by rewrite app_nil_r, <- app_assoc.
Qed.

(** A run of [k] sleeps issues [k + 1] probes and no other call. *)
Lemma run_calls k backoff r res r' :
  run k backoff r res r' →
  callsOf (log r') = callsOf (log r) ++ repeat probe (S k).
Proof.
  induction 1 as [b r p r1 Hget|b r e r1 Hget Hdl|b r e r1 r2 Hget Hdl Hsel
                 |k b r e r1 r2 res r' Hget Hdl Hsel _ IH];
    apply GetProject_inv in Hget as (_ & _ & Hlog & _).
  - rewrite Hlog, callsOf_app. done.
  - rewrite Hlog, callsOf_app. done.
  - apply select_done in Hsel as (c & _ & _ & ->). cbn [log].
    rewrite Hlog, !callsOf_app. simpl. by rewrite app_nil_r.
  - apply select_after in Hsel as [-> _]. cbn [log] in IH.
    rewrite IH, Hlog, !callsOf_app. simpl. by rewrite app_nil_r, <- app_assoc.
Qed.

(** Every probe but the last one of a run failed. *)
Lemma run_failed_probes k backoff r res r' :
  run k backoff r res r' →
  ∀ i, (i < k)%nat → ∃ e, answerProject w (ncalls r + i) environmentID projectID = inr e.
Proof.
  induction 1 as [b r p r1 Hget|b r e r1 Hget Hdl|b r e r1 r2 Hget Hdl Hsel
                 |k b r e r1 r2 res r' Hget Hdl Hsel _ IH];
    intros i Hi; try lia.
  apply GetProject_inv in Hget as (Hans & _ & _ & Hn).
  apply select_after in Hsel as [-> _].
  rewrite ncalls_not_called in IH by done. rewrite Hn in IH.
  destruct i as [|i].
  - exists e. by rewrite Nat.add_0_r.
  - destruct (IH i ltac:(lia)) as [e' He']. exists e'.
    by replace (ncalls r + S i)%nat with (S (ncalls r) + i)%nat by lia.
Qed.

(** The result of a run, from the answer to its last probe. *)
Lemma run_result k backoff r res r' :
  run k backoff r res r' →
  match answerProject w (ncalls r + k) environmentID projectID with
  | inl _ => res = None
  | inr e =>
      (res = Some (timeoutError timeout e) ∧ deadline < clock r')
      ∨ (res = Some (ctxErr ctx)
         ∧ ∃ t b d, last (log r') = Some (t, Interrupted b d) ∧ t ≤ deadline)
  end.
Proof.
  induction 1 as [b r p r1 Hget|b r e r1 Hget Hdl|b r e r1 r2 Hget Hdl Hsel
                 |k b r e r1 r2 res r' Hget Hdl Hsel _ IH];
    apply GetProject_inv in Hget as (Hans & _ & _ & Hn).
  - rewrite Nat.add_0_r, <- Hans. done.
  - rewrite Nat.add_0_r, <- Hans. by left.
  - rewrite Nat.add_0_r, <- Hans. right. split; [done|].
    apply select_done in Hsel as (c & _ & _ & ->). cbn [log].
    rewrite last_snoc. eauto.
  - apply select_after in Hsel as [-> _].
    rewrite ncalls_not_called in IH by done. rewrite Hn in IH.
    by replace (ncalls r + S k)%nat with (S (ncalls r) + k)%nat by lia.
Qed.

(** Without cancellation no wait is interrupted. *)
Lemma run_never_cancelled k backoff r res r' :
  run k backoff r res r' → doneAt ctx = None →
  match answerProject w (ncalls r + k) environmentID projectID with
  | inl _ => res = None
  | inr e => res = Some (timeoutError timeout e) ∧ deadline < clock r'
  end.
Proof.
  intros Hrun Hnone. pose proof (run_result _ _ _ _ _ Hrun) as Hres.
  destruct (answerProject _ _ _ _) as [p|e]; [done|].
  destruct Hres as [H|[_ (t & b & d & Hlast & _)]]; [done|].
  exfalso. clear -Hrun Hnone Hlast.
  induction Hrun as [b0 r p r1 Hget|b0 r e r1 Hget Hdl|b0 r e r1 r2 Hget Hdl Hsel
                    |k b0 r e r1 r2 res r' Hget Hdl Hsel _ IH].
  - apply GetProject_inv in Hget as (_ & _ & Hlog & _).
    rewrite Hlog, last_snoc in Hlast. discriminate.
  - apply GetProject_inv in Hget as (_ & _ & Hlog & _).
    rewrite Hlog, last_snoc in Hlast. discriminate.
  - apply select_done in Hsel as (c & Hc & _). congruence.
  - by apply IH.
Qed.

Local Ltac no_such_entry :=
  cbn [app] in *;
  repeat match goal with
    | H : _ ∈ _ :: _ |- _ => apply elem_of_cons in H as [H|H]; [discriminate H|]
    | H : _ ∈ [] |- _ => by apply elem_of_nil in H
    end.

(** The waits of a run: a completed sleep began no later than the
    deadline and ended no later than a cancellation; an interrupted wait
    is the last entry of the log and ends the run, with the context's
    error, at the later of its start and the cancellation. *)
Lemma run_waits k backoff r res r' :
  run k backoff r res r' →
  0 ≤ backoff →
  ∀ Δ, log r' = log r ++ Δ →
    (∀ t d, (t, Slept d) ∈ Δ →
       t ≤ deadline ∧ ∀ c, doneAt ctx = Some c → t + d ≤ c)
    ∧ (∀ t b d, (t, Interrupted b d) ∈ Δ →
         res = Some (ctxErr ctx)
         ∧ last Δ = Some (t, Interrupted b d)
         ∧ 0 ≤ b
         ∧ ∃ c, doneAt ctx = Some c ∧ c ≤ t + b
                ∧ d = Z.max t c - t ∧ clock r' = Z.max t c).
Proof.
  induction 1 as [b0 r p r1 Hget|b0 r e r1 Hget Hdl|b0 r e r1 r2 Hget Hdl Hsel
                 |k b0 r e r1 r2 res r' Hget Hdl Hsel Hrun IH];
    intros Hb Δ HΔ; apply GetProject_inv in Hget as (_ & _ & Hlog & _).
  - rewrite Hlog in HΔ. apply app_inv_head in HΔ as <-.
    split; intros; no_such_entry.
  - rewrite Hlog in HΔ. apply app_inv_head in HΔ as <-.
    split; intros; no_such_entry.
  - apply select_done in Hsel as (c & Hc & Hle & ->). cbn [log clock] in *.
    rewrite Hlog, <- app_assoc in HΔ. apply app_inv_head in HΔ as <-.
    split; [intros; no_such_entry|].
    intros t b d Hin. simpl in Hin.
    apply elem_of_cons in Hin as [[=]|Hin].
    apply elem_of_cons in Hin as [[= -> -> ->]|Hin]; [|no_such_entry].
    split; [done|]. split; [done|]. split; [done|]. exists c. done.
  - destruct (run_extends _ _ _ _ _ Hrun) as [Δ' HΔ'].
    specialize (IH (nextBackoff_nonneg _ Hb) Δ' HΔ') as [IHs IHi].
    apply select_after in Hsel as [-> Hc]. cbn [log clock] in *.
    rewrite HΔ', Hlog, <- !app_assoc in HΔ. apply app_inv_head in HΔ as <-.
    simpl. split.
    + intros t d Hin.
      apply elem_of_cons in Hin as [[=]|Hin].
      apply elem_of_cons in Hin as [[= -> ->]|Hin]; [by split|].
      by apply IHs.
    + intros t b d Hin.
      apply elem_of_cons in Hin as [[=]|Hin].
      apply elem_of_cons in Hin as [[=]|Hin].
      destruct (IHi t b d Hin) as (Hres & Hlast & Hex).
      split; [done|]. split; [|done].
      destruct Δ' as [|x Δ']; [by apply elem_of_nil in Hin|].
      exact Hlast.
Qed.

(** One round in which the context is cancelled before the timer of the
    sleep is due returns the context's error at once. *)
Lemma waitLoop_cancelled_in_sleep (fuel : nat) (backoff : Z) (r : Run) (e : error) (c : Z) :
  answerProject w (ncalls r) environmentID projectID = inr e →
  clock r + Z.of_N (latency w (ncalls r)) ≤ deadline →
  doneAt ctx = Some c →
  c < clock r + Z.of_N (latency w (ncalls r)) + backoff →
  loop (S fuel) backoff r =
    Some (Some (ctxErr ctx),
          let t := clock r + Z.of_N (latency w (ncalls r)) in
          {| clock := Z.max t c;
             log := (log r ++ [(clock r, Called probe (Z.of_N (latency w (ncalls r))))])
                    ++ [(t, Interrupted backoff (Z.max t c - t))] |}).
Proof.
  intros Hans Hdl Hc Hlt. cbn [waitLoop]. rewrite GetProject_eq, Hans. cbn [clock].
  destruct (Z.gtb_spec (clock r + Z.of_N (latency w (ncalls r))) deadline); [lia|].
  by rewrite (select_cancelled_early _ _ _ c).
Qed.

(** The time slept by a run that starts with a backoff of at most thirty
    seconds: nothing once the deadline has passed, else at most the time
    left to the deadline and thirty seconds more. *)
Lemma run_slept_bound k backoff r res r' :
  run k backoff r res r' →
  0 ≤ backoff ≤ 30 * Second →
  (deadline < clock r → totalSlept (log r') = totalSlept (log r))
  ∧ (clock r ≤ deadline →
     totalSlept (log r') - totalSlept (log r) ≤ deadline - clock r + 30 * Second).
Proof.
  induction 1 as [b0 r p r1 Hget|b0 r e r1 Hget Hdl|b0 r e r1 r2 Hget Hdl Hsel
                 |k b0 r e r1 r2 res r' Hget Hdl Hsel Hrun IH];
    intros [Hb0 Hb30]; apply GetProject_inv in Hget as (_ & Hclk & Hlog & _).
  - rewrite Hlog, totalSlept_called. unfold Second. lia.
  - rewrite Hlog, totalSlept_called. unfold Second. lia.
  - apply select_done in Hsel as (c & _ & _ & ->). cbn [log].
    rewrite Hlog, totalSlept_interrupted, totalSlept_called. unfold Second. lia.
  - apply select_after in Hsel as [-> _]. cbn [log clock] in IH.
    destruct (IH ltac:(split; [by apply nextBackoff_nonneg|by apply nextBackoff_bounds_upper]))
      as [IH1 IH2].
    rewrite Hlog, totalSlept_slept, totalSlept_called in IH1, IH2.
    split; [lia|]. intros _.
    destruct (Z.lt_ge_cases deadline (clock r1 + b0)) as [Hpast|Hleft].
    + rewrite (IH1 Hpast). unfold Second in *. lia.
    + specialize (IH2 ltac:(lia)). lia.
Qed.

End Wait.

(** ** C5-C7: the reachability wait *)

Lemma enoughFuel_spec (timeout : Z) (fuel : nat) :
  (enoughFuel timeout ≤ fuel)%nat →
  timeout < (Z.of_nat fuel - 1) * (5 * Second) ∧ (1 ≤ fuel)%nat.
Proof.
  unfold enoughFuel, Second. intros Hfuel. split; [|lia].
  destruct (Z.lt_ge_cases timeout 0) as [Hneg|Hpos].
  - lia.
  - pose proof (Z.mul_succ_div_gt timeout (5 * 1000000000) ltac:(lia)) as Hdiv.
    assert (0 ≤ timeout / (5 * 1000000000)) by (apply Z.div_pos; lia).
    nia.
Qed.

Section Rounds.

Variables (w : World) (ctx : Context) (environmentID projectID : string).
Variables (timeout deadline : Z).

Local Abbreviation run := (waitRun w ctx environmentID projectID timeout deadline).
Local Abbreviation loop fuel :=
  (waitLoop fuel w ctx environmentID projectID timeout deadline).
Local Abbreviation probe := (GetProjectCall environmentID projectID).

(** A round whose probe fails before the deadline, and whose sleep ends
    before any cancellation, goes round with the next backoff. *)
Lemma waitLoop_retry (fuel : nat) (backoff : Z) (r : Run) (e : error) :
  answerProject w (ncalls r) environmentID projectID = inr e →
  clock (afterProbe w environmentID projectID r) ≤ deadline →
  (∀ c, doneAt ctx = Some c →
        clock (afterProbe w environmentID projectID r) + backoff < c) →
  loop (S fuel) backoff r =
    loop fuel (nextBackoff backoff)
      {| clock := clock (afterProbe w environmentID projectID r) + backoff;
         log := log (afterProbe w environmentID projectID r)
                ++ [(clock (afterProbe w environmentID projectID r), Slept backoff)] |}.
Proof.
  unfold afterProbe. intros Hans Hdl Hctx. cbn [waitLoop].
  rewrite GetProject_eq in *. rewrite Hans. cbn [snd clock log] in *.
  destruct (Z.gtb_spec (clock r + Z.of_N (latency w (ncalls r))) deadline); [lia|].
  unfold selectDoneOrAfter. cbn [clock log].
  destruct (doneAt ctx) as [c|]; [|done].
  specialize (Hctx c eq_refl).
  destruct (Z.ltb_spec c (clock r + Z.of_N (latency w (ncalls r)) + backoff)); [lia|].
  destruct (Z.eqb_spec c (clock r + Z.of_N (latency w (ncalls r)) + backoff)); [lia|].
  done.
Qed.

Lemma ncalls_afterProbe (r : Run) :
  ncalls (afterProbe w environmentID projectID r) = S (ncalls r).
Proof. unfold afterProbe. rewrite GetProject_eq. apply ncalls_called. Qed.

Lemma ncalls_afterRounds (i : nat) (r : Run) :
  ncalls (afterRounds w environmentID projectID i r) = (ncalls r + i)%nat.
Proof.
  induction i as [|i IH]; cbn [afterRounds]; [lia|].
  rewrite ncalls_not_called by done. rewrite ncalls_afterProbe, IH. lia.
Qed.

(** The log after [i] rounds: [i] probes, and the first [i] sleeps of
    the backoff sequence. *)
Lemma afterRounds_log (i : nat) (r : Run) :
  sleepsOf (log (afterRounds w environmentID projectID i r)) =
    sleepsOf (log r) ++ map backoffSeq (seq 0 i)
  ∧ callsOf (log (afterRounds w environmentID projectID i r)) =
      callsOf (log r) ++ repeat probe i.
Proof.
  induction i as [|i [IHs IHc]]; cbn [afterRounds].
  - simpl. by rewrite !app_nil_r.
  - unfold afterProbe. rewrite GetProject_eq. cbn [snd clock log].
    rewrite !sleepsOf_app, !callsOf_app, IHs, IHc. cbn [sleepsOf callsOf].
    rewrite !app_nil_r, seq_S, map_app, <- !app_assoc. cbn [map Nat.add].
    split; [done|].
    f_equal. symmetry. apply repeat_cons.
Qed.

(** While the rounds go round, the loop is at round [k] with the
    [k]-th backoff. *)
Lemma waitLoop_reaches_round (k fuel : nat) (r : Run) :
  (∀ i, (i < k)%nat → roundRetries w ctx environmentID projectID deadline r i) →
  loop (k + fuel) (backoffSeq 0) r =
    loop fuel (backoffSeq k) (afterRounds w environmentID projectID k r).
Proof.
  revert fuel. induction k as [|k IH]; intros fuel Hrounds; [done|].
  replace (S k + fuel)%nat with (k + S fuel)%nat by lia.
  rewrite IH by (intros i Hi; apply Hrounds; lia).
  destruct (Hrounds k ltac:(lia)) as ([e He] & Hdl & Hctx).
  rewrite <- ncalls_afterRounds in He.
  rewrite (waitLoop_retry _ _ _ e He Hdl Hctx), nextBackoff_backoffSeq.
  reflexivity.
Qed.

(** The result of a run, with what an interruption says of the
    context. *)
Lemma run_result_cancelled k backoff r res r' :
  run k backoff r res r' →
  match answerProject w (ncalls r + k) environmentID projectID with
  | inl _ => res = None
  | inr e =>
      (res = Some (timeoutError timeout e) ∧ deadline < clock r')
      ∨ (res = Some (ctxErr ctx)
         ∧ ∃ t b d c, last (log r') = Some (t, Interrupted b d)
                      ∧ t ≤ deadline ∧ doneAt ctx = Some c ∧ c ≤ t + b)
  end.
Proof.
  induction 1 as [b r p r1 Hget|b r e r1 Hget Hdl|b r e r1 r2 Hget Hdl Hsel
                 |k b r e r1 r2 res r' Hget Hdl Hsel _ IH];
    apply GetProject_inv in Hget as (Hans & _ & _ & Hn).
  - rewrite Nat.add_0_r, <- Hans. done.
  - rewrite Nat.add_0_r, <- Hans. by left.
  - rewrite Nat.add_0_r, <- Hans. right. split; [done|].
    apply select_done in Hsel as (c & Hc & Hle & ->). cbn [log].
    rewrite last_snoc. by exists (clock r1), b, (Z.max (clock r1) c - clock r1), c.
  - apply select_after in Hsel as [-> _].
    rewrite ncalls_not_called in IH by done. rewrite Hn in IH.
    by replace (ncalls r + S k)%nat with (S (ncalls r) + k)%nat by lia.
Qed.

End Rounds.

(** C5. [waitForAgent] polls with the backoff sequence. As long as each
    round's probe fails before the deadline and the context is not
    cancelled by the end of its sleep, the wait goes round: after [k]
    such rounds it has issued [k] probes and slept 5s, 10s, 20s, 30s,
    30s, ... in this order, and it probes again; if that probe returns a
    project the wait returns success at once and polls no further, and
    if it fails after the deadline the wait returns the time-out error
    that wraps the error of that probe. With enough rounds allowed every
    wait returns, and its run is of this shape: [k] sleeps of the
    sequence between [k + 1] probes, every probe but the last failed,
    success exactly when the last probe returned a project, else the
    time-out error after the deadline or an interruption by a cancelled
    context. The equations of one round, for success, time-out and going
    round with the doubled, capped backoff, hold in any round. *)
Theorem wait_polls_with_backoff (w : World) (ctx : Context)
    (environmentID projectID : string) (timeout : Z) :
  (∀ fuel r,
     (enoughFuel timeout ≤ fuel)%nat →
     ∃ res r' k,
       waitForAgent fuel w ctx environmentID projectID timeout r = Some (res, r')
       ∧ sleepsOf (log r') = sleepsOf (log r) ++ map backoffSeq (seq 0 k)
       ∧ callsOf (log r') =
           callsOf (log r) ++ repeat (GetProjectCall environmentID projectID) (S k)
       ∧ (∀ i, (i < k)%nat →
            ∃ e, answerProject w (ncalls r + i) environmentID projectID = inr e)
       ∧ match answerProject w (ncalls r + k) environmentID projectID with
         | inl _ => res = None
         | inr e =>
             (res = Some (timeoutError timeout e)
              ∧ Unwrap (timeoutError timeout e) = Some e
              ∧ clock r + timeout < clock r')
             ∨ (res = Some (ctxErr ctx)
                ∧ ∃ t b d c, last (log r') = Some (t, Interrupted b d)
                             ∧ t ≤ clock r + timeout
                             ∧ doneAt ctx = Some c ∧ c ≤ t + b)
         end)
  ∧ (∀ fuel deadline backoff r p,
       answerProject w (ncalls r) environmentID projectID = inl p →
       waitLoop (S fuel) w ctx environmentID projectID timeout deadline backoff r =
         Some (None,
               {| clock := clock r + Z.of_N (latency w (ncalls r));
                  log := log r ++ [(clock r, Called (GetProjectCall environmentID projectID)
                                               (Z.of_N (latency w (ncalls r))))] |}))
  ∧ (∀ fuel deadline backoff r e,
       answerProject w (ncalls r) environmentID projectID = inr e →
       deadline < clock r + Z.of_N (latency w (ncalls r)) →
       waitLoop (S fuel) w ctx environmentID projectID timeout deadline backoff r =
         Some (Some (timeoutError timeout e),
               {| clock := clock r + Z.of_N (latency w (ncalls r));
                  log := log r ++ [(clock r, Called (GetProjectCall environmentID projectID)
                                               (Z.of_N (latency w (ncalls r))))] |}))
  ∧ (∀ fuel deadline backoff r e,
       answerProject w (ncalls r) environmentID projectID = inr e →
       clock r + Z.of_N (latency w (ncalls r)) ≤ deadline →
       (∀ c, doneAt ctx = Some c →
             clock r + Z.of_N (latency w (ncalls r)) + backoff < c) →
       waitLoop (S fuel) w ctx environmentID projectID timeout deadline backoff r =
         waitLoop fuel w ctx environmentID projectID timeout deadline
           (if backoff <? 30 * Second
            then (if backoff * 2 >? 30 * Second then 30 * Second else backoff * 2)
            else backoff)
           {| clock := clock r + Z.of_N (latency w (ncalls r)) + backoff;
              log := (log r ++ [(clock r, Called (GetProjectCall environmentID projectID)
                                            (Z.of_N (latency w (ncalls r))))])
                     ++ [(clock r + Z.of_N (latency w (ncalls r)), Slept backoff)] |})
  ∧ (∀ fuel r k,
       (k < fuel)%nat →
       (∀ i, (i < k)%nat →
             roundRetries w ctx environmentID projectID (clock r + timeout) r i) →
       let rk := afterRounds w environmentID projectID k r in
       sleepsOf (log rk) = sleepsOf (log r) ++ map backoffSeq (seq 0 k)
       ∧ callsOf (log rk) =
           callsOf (log r) ++ repeat (GetProjectCall environmentID projectID) k
       ∧ (∀ p, answerProject w (ncalls r + k) environmentID projectID = inl p →
            waitForAgent fuel w ctx environmentID projectID timeout r =
              Some (None, afterProbe w environmentID projectID rk))
       ∧ (∀ e, answerProject w (ncalls r + k) environmentID projectID = inr e →
            clock r + timeout < clock (afterProbe w environmentID projectID rk) →
            waitForAgent fuel w ctx environmentID projectID timeout r =
              Some (Some (timeoutError timeout e),
                    afterProbe w environmentID projectID rk))).
Proof.
  split; [|split; [|split; [|split]]].
  - intros fuel r Hfuel. apply enoughFuel_spec in Hfuel as [Hfuel Hpos].
    unfold waitForAgent.
    destruct (waitLoop_terminates w ctx environmentID projectID timeout
                (clock r + timeout) fuel (5 * Second) r) as (res & r' & Hloop);
      [unfold Second; lia | lia | done |].
    destruct (waitLoop_run _ _ _ _ _ _ _ _ _ _ _ Hloop) as [k Hrun].
    exists res, r', k. split; [done|].
    split.
    { rewrite (run_sleeps _ _ _ _ _ _ _ _ _ _ _ Hrun).
      by rewrite <- backoffSeq_0, backoffsFrom_backoffSeq. }
    split; [by apply (run_calls _ _ _ _ _ _ _ _ _ _ _ Hrun)|].
    split; [by apply (run_failed_probes _ _ _ _ _ _ _ _ _ _ _ Hrun)|].
    pose proof (run_result_cancelled _ _ _ _ _ _ _ _ _ _ _ Hrun) as Hres.
    destruct (answerProject w (ncalls r + k) environmentID projectID) as [p|e]; [done|].
    destruct Hres as [[-> Hdl]|[-> Hint]]; [left|right]; done.
  - intros fuel deadline backoff r p Hans.
    cbn [waitLoop]. by rewrite GetProject_eq, Hans.
  - intros fuel deadline backoff r e Hans Hpast.
    cbn [waitLoop]. rewrite GetProject_eq, Hans. cbn [clock].
    destruct (Z.gtb_spec (clock r + Z.of_N (latency w (ncalls r))) deadline); [done|lia].
  - intros fuel deadline backoff r e Hans Hdl Hctx.
    pose proof (waitLoop_retry w ctx environmentID projectID timeout deadline
                  fuel backoff r e Hans) as Hretry.
    unfold afterProbe in Hretry. rewrite GetProject_eq in Hretry.
    cbn [snd clock log] in Hretry. by apply Hretry.
  - intros fuel r k Hk Hrounds rk.
    destruct (afterRounds_log w environmentID projectID k r) as [Hsleeps Hcalls].
    split; [done|]. split; [done|].
    unfold waitForAgent.
    replace fuel with (k + S (fuel - S k))%nat by lia.
    rewrite <- backoffSeq_0.
    rewrite (waitLoop_reaches_round w ctx environmentID projectID timeout
               (clock r + timeout) k _ r Hrounds).
    subst rk. unfold afterProbe. cbn [waitLoop]. rewrite GetProject_eq.
    rewrite (ncalls_afterRounds w environmentID projectID k r).
    split.
    + intros p ->. done.
    + intros e ->. cbn [snd clock]. intros Hpast.
      destruct (Z.gtb_spec
                  (clock (afterRounds w environmentID projectID k r)
                   + Z.of_N (latency w (ncalls r + k)))
                  (clock r + timeout)); [done|lia].
Qed.

(** C6. When the context is cancelled at [c]: a round whose probe failed
    before the deadline and whose sleep would end after [c] returns the
    context's error, at the later of [c] and the start of the sleep, with
    nothing logged after the interrupted wait; and in every run of
    [waitForAgent] each completed sleep ended no later than [c], while an
    interrupted wait is the last entry of the log, ends the run with the
    context's error and lasts no longer than to [c]. *)
Theorem wait_cancelled_during_sleep (w : World) (ctx : Context)
    (environmentID projectID : string) (timeout c : Z) :
  doneAt ctx = Some c →
  (∀ fuel deadline backoff r e,
     answerProject w (ncalls r) environmentID projectID = inr e →
     clock r + Z.of_N (latency w (ncalls r)) ≤ deadline →
     c < clock r + Z.of_N (latency w (ncalls r)) + backoff →
     waitLoop (S fuel) w ctx environmentID projectID timeout deadline backoff r =
       Some (Some (ctxErr ctx),
             let t := clock r + Z.of_N (latency w (ncalls r)) in
             {| clock := Z.max t c;
                log := (log r ++ [(clock r, Called (GetProjectCall environmentID projectID)
                                              (Z.of_N (latency w (ncalls r))))])
                       ++ [(t, Interrupted backoff (Z.max t c - t))] |}))
  ∧ (∀ fuel r res r' Δ,
       waitForAgent fuel w ctx environmentID projectID timeout r = Some (res, r') →
       log r' = log r ++ Δ →
       (∀ t d, (t, Slept d) ∈ Δ → t + d ≤ c)
       ∧ (∀ t b d, (t, Interrupted b d) ∈ Δ →
            res = Some (ctxErr ctx)
            ∧ last Δ = Some (t, Interrupted b d)
            ∧ d = Z.max t c - t
            ∧ clock r' = Z.max t c
            ∧ clock r' ≤ t + b)).
Proof.
  intros Hc. split.
  - intros fuel deadline backoff r e Hans Hdl Hlt.
    by eapply waitLoop_cancelled_in_sleep.
  - intros fuel r res r' Δ Hwait HΔ. unfold waitForAgent in Hwait.
    destruct (waitLoop_run _ _ _ _ _ _ _ _ _ _ _ Hwait) as [k Hrun].
    destruct (run_waits _ _ _ _ _ _ _ _ _ _ _ Hrun ltac:(unfold Second; lia) Δ HΔ)
      as [Hs Hi].
    split.
    + intros t d Hin. destruct (Hs t d Hin) as [_ Hle]. by apply Hle.
    + intros t b d Hin.
      destruct (Hi t b d Hin) as (Hres & Hlast & Hb & c' & Hc' & Hle & Hd & Hclk).
      assert (c' = c) as -> by congruence.
      repeat split; try done. lia.
Qed.

(** C7. With a probe that always fails, no cancellation and a timeout of
    one second, [waitForAgent] returns the time-out error, wrapping a
    probe error, after more than one second; it has slept nothing or the
    first backoff interval, so the time slept exceeds the timeout by less
    than one backoff interval; the time elapsed is the time slept and
    the time spent in the probes, so with probes that answer at once the
    wait returns less than one backoff interval after the timeout. *)
Theorem wait_one_second_timeout (fuel : nat) (w : World) (ctx : Context)
    (environmentID projectID : string) (r : Run) :
  (2 ≤ fuel)%nat →
  doneAt ctx = None →
  (∀ n, ∃ e, answerProject w n environmentID projectID = inr e) →
  ∃ e r',
    waitForAgent fuel w ctx environmentID projectID (1 * Second) r =
      Some (Some (timeoutError (1 * Second) e), r')
    ∧ (totalSlept (log r') - totalSlept (log r) = 0
       ∨ totalSlept (log r') - totalSlept (log r) = backoffSeq 0)
    ∧ totalSlept (log r') - totalSlept (log r) - 1 * Second < backoffSeq 0
    ∧ clock r' - clock r =
        (totalSlept (log r') - totalSlept (log r))
        + (timeInCalls (log r') - timeInCalls (log r))
    ∧ 0 ≤ timeInCalls (log r') - timeInCalls (log r)
    ∧ ((∀ n, latency w n = 0%N) → clock r' - clock r - 1 * Second < backoffSeq 0)
    ∧ 1 * Second < clock r' - clock r.
Proof.
  intros Hfuel Hnone Hfail.
  destruct fuel as [|[|fuel]]; [lia|lia|].
  unfold waitForAgent. cbn [waitLoop]. rewrite GetProject_eq.
  destruct (Hfail (ncalls r)) as [e0 He0]. rewrite He0. cbn [clock log].
  set (lat0 := Z.of_N (latency w (ncalls r))).
  assert (Hlat0 : 0 ≤ lat0) by (unfold lat0; lia).
  destruct (Z.gtb_spec (clock r + lat0) (clock r + 1 * Second)) as [Hpast|Hleft].
  - exists e0. eexists. split; [reflexivity|]. cbn [clock log].
    rewrite totalSlept_called, timeInCalls_called.
    rewrite backoffSeq_0. unfold Second in *.
    repeat split; try lia. intros Hzero.
    pose proof (Hzero (ncalls r)) as Hz0. unfold lat0 in *. lia.
  - rewrite select_never_cancelled by done.
    rewrite GetProject_eq, ncalls_not_called, ncalls_called by done.
    cbn [clock log].
    destruct (Hfail (S (ncalls r))) as [e1 He1]. rewrite He1.
    set (lat1 := Z.of_N (latency w (S (ncalls r)))).
    assert (Hlat1 : 0 ≤ lat1) by (unfold lat1; lia).
    destruct (Z.gtb_spec (clock r + lat0 + 5 * Second + lat1) (clock r + 1 * Second))
      as [Hpast|Hearly]; [|unfold Second in *; lia].
    exists e1. eexists. split; [reflexivity|]. cbn [clock log].
    rewrite totalSlept_called, totalSlept_slept, totalSlept_called.
    rewrite timeInCalls_called, timeInCalls_slept, timeInCalls_called.
    rewrite backoffSeq_0. unfold Second in *.
    repeat split; try lia. intros Hzero.
    pose proof (Hzero (ncalls r)) as Hz0. pose proof (Hzero (S (ncalls r))) as Hz1.
    unfold lat0, lat1 in *. lia.
Qed.

(** ** C10: the wait timeout *)

(** C10. [parseWaitTimeout] returns a duration for every spec and has no
    error result: two minutes when the text is empty or does not parse,
    and otherwise the parsed duration, whatever its sign. *)
Theorem parseWaitTimeout_total (data : ProjectDeploymentResourceModel) :
  (ValueString (WaitTimeout data) = "" → parseWaitTimeout data = 2 * Minute)
  ∧ (∀ e, ParseDuration (ValueString (WaitTimeout data)) = inr e →
       parseWaitTimeout data = 2 * Minute)
  ∧ (∀ d, ValueString (WaitTimeout data) ≠ "" →
       ParseDuration (ValueString (WaitTimeout data)) = inl d →
       parseWaitTimeout data = d)
  ∧ 2 * Minute = 120 * Second.
Proof.
  unfold parseWaitTimeout. repeat split.
  - intros ->. done.
  - intros e He. rewrite He. by destruct (String.eqb _ _).
  - intros d Hne Hd. rewrite Hd.
    destruct (String.eqb_spec (ValueString (WaitTimeout data)) ""); [contradiction|done].
Qed.

(** ** C3, C4: destroy *)

Lemma IsNotFound_spec (e : error) :
  IsNotFound e = true ↔ ∃ m d, As_APIError e = Some (404, m, d).
Proof.
  unfold IsNotFound. destruct (As_APIError e) as [[[c m] d]|].
  - split.
    + intros H. apply Z.eqb_eq in H as ->. eauto.
    + intros (m' & d' & [= -> _ _]). done.
  - split; [discriminate|]. intros (m & d & [=]).
Qed.

(** C3. With [stop_on_delete] not set to true, [Delete] returns no
    diagnostic and leaves the run as it was: it issues no remote call. *)
Theorem delete_without_stop_calls_nothing (w : World)
    (data : ProjectDeploymentResourceModel) (r : Run) :
  ValueBool (StopOnDelete data) = false →
  Delete w data r = ([], r)
  ∧ callsOf (log (Delete w data r).2) = callsOf (log r).
Proof.
  intros Hstop. unfold Delete. rewrite Hstop. done.
Qed.

(** C4. With [stop_on_delete] true, [Delete] issues exactly one call,
    [StopProject] for the record's project. It reports no error when the
    call succeeds and when the call fails with an [APIError] of status
    404, bare or wrapped; for every other error it reports "Failed to
    stop project" with the text of that error. *)
Theorem delete_with_stop_is_idempotent (w : World)
    (data : ProjectDeploymentResourceModel) (r : Run) :
  ValueBool (StopOnDelete data) = true →
  let stop := StopProjectCall (ValueString (EnvironmentID data))
                (ValueString (ProjectID data)) in
  callsOf (log (Delete w data r).2) = callsOf (log r) ++ [stop]
  ∧ (answerAction w (ncalls r) stop = None → (Delete w data r).1 = [])
  ∧ (∀ e, answerAction w (ncalls r) stop = Some e →
       (∃ m d, As_APIError e = Some (404, m, d)) →
       (Delete w data r).1 = [])
  ∧ (∀ e, answerAction w (ncalls r) stop = Some e →
       ¬ (∃ m d, As_APIError e = Some (404, m, d)) →
       (Delete w data r).1 = [AddError "Failed to stop project" (Error e)]).
Proof.
  intros Hstop stop. unfold Delete. rewrite Hstop.
  unfold StopProject, remote. fold stop.
  destruct (answerAction w (ncalls r) stop) as [e|] eqn:Hans.
  - destruct (IsNotFound e) eqn:Hnf; simpl.
    + split; [by rewrite callsOf_app|]. split; [discriminate|].
      split; [done|]. intros e' [= <-] Hnot.
      apply IsNotFound_spec in Hnf. contradiction.
    + split; [by rewrite callsOf_app|]. split; [discriminate|].
      split; [|by intros e' [= <-] _].
      intros e' [= <-] H404. apply IsNotFound_spec in H404. congruence.
  - simpl. split; [by rewrite callsOf_app|]. split; [done|].
    split; intros e [=].
Qed.

(** ** C8: containers of the project status *)

(** C8. Once the project is read, [Read] writes a state and the
    containers in it depend on the container-list call alone: when that
    call fails they are built from the services of the project, or null
    when it has none; when it succeeds they are built from the containers
    it returned, and null when it returned none, whatever the services. *)
Theorem status_falls_back_only_on_error (w : World)
    (data : ProjectStatusDataSourceModel) (r : Run) (project : Project) :
  let environmentID := ValueString (DS_EnvironmentID data) in
  let projectID := ValueString (DS_ProjectID data) in
  answerProject w (ncalls r) environmentID projectID = inl project →
  ∃ data' r',
    ProjectStatusDataSource_Read w data r = ([], Some data', r')
    ∧ callsOf (log r') =
        callsOf (log r) ++ [GetProjectCall environmentID projectID;
                            GetProjectContainersCall environmentID projectID]
    ∧ match answerContainers w (S (ncalls r)) environmentID projectID with
      | inr _ =>
          (Project_Services project ≠ [] →
           DS_Containers data' = ListValue (map serviceObject (Project_Services project)))
          ∧ (Project_Services project = [] → DS_Containers data' = ListNull)
      | inl [] => DS_Containers data' = ListNull
      | inl (c :: cs) => DS_Containers data' = ListValue (map containerObject (c :: cs))
      end.
Proof.
  intros environmentID projectID Hproject.
  unfold ProjectStatusDataSource_Read. fold environmentID projectID.
  rewrite GetProject_eq, Hproject.
  unfold GetProjectContainers, remote. rewrite ncalls_called. cbn [clock log].
  eexists _, _. split; [reflexivity|]. cbn [log DS_Containers].
  split; [by rewrite !callsOf_app, <- app_assoc|].
  destruct (answerContainers w (S (ncalls r)) environmentID projectID) as [[|c cs]|e];
    simpl; try done.
  destruct (Project_Services project) as [|s ss]; simpl; split; done.
Qed.

(** ** C9: the composite identifier *)

Lemma Cut_Some (s : string) (sep : ascii) (before after : string) :
  Cut s sep = Some (before, after) → s = before +:+ String sep after.
Proof.
  revert before. induction s as [|c s IH]; intros before; simpl; [discriminate|].
  destruct (Ascii.eqb_spec c sep) as [->|Hne].
  - intros [= <- <-]. done.
  - destruct (Cut s sep) as [[b a]|]; [|discriminate].
    intros [= <- <-]. rewrite (IH b eq_refl) at 1. reflexivity.
Qed.

Lemma Cut_first (before after : string) (sep : ascii) :
  ¬ In sep (list_ascii_of_string before) →
  Cut (before +:+ String sep after) sep = Some (before, after).
Proof.
  induction before as [|c before IH]; simpl; intros Hnot.
  - by rewrite Ascii.eqb_refl.
  - destruct (Ascii.eqb_spec c sep) as [->|Hne]; [tauto|].
    rewrite IH; [done|tauto].
Qed.

Lemma SplitN_two (s : string) (sep : ascii) :
  SplitN s sep 2 =
    match Cut s sep with
    | Some (before, after) => [before; after]
    | None => [s]
    end.
Proof.
  unfold SplitN. destruct s as [|c s]; [done|].
  replace (Nat.min 2 (String.length (String c s) + 1) - 1)%nat with 1%nat
    by (change (String.length (String c s)) with (S (String.length s)); lia).
  cbn [splitLoop]. by destruct (Cut (String c s) sep) as [[b a]|].
Qed.


(** C9. [Create] writes the identifier [environment_id/project_id]; for
    a non-empty environment identifier with no slash in it and a
    non-empty project identifier, [ImportState] of that identifier
    reports no error and sets [environment_id] and [project_id] to the
    original pair; an identifier that is not two non-empty parts with a
    slash between them is rejected with "Invalid import ID" and sets
    nothing. [Create] does write the identifier: when the wait, the
    deployment and the read of the project succeed, it returns without
    error a state whose [id] is the composite identifier and whose
    [environment_id] and [project_id] are those of the plan, and
    importing that [id] gives the pair back. *)
Theorem composite_id_round_trips :
  (∀ fuel w ctx data r diags data' r',
     Create fuel w ctx data r = Some (diags, Some data', r') →
     ID data' = StringValue (compositeID (ValueString (EnvironmentID data))
                               (ValueString (ProjectID data))))
  ∧ (∀ environmentID projectID,
       environmentID ≠ "" →
       ¬ In "/"%char (list_ascii_of_string environmentID) →
       projectID ≠ "" →
       ImportState (compositeID environmentID projectID) =
         ([], [("id", compositeID environmentID projectID);
               ("environment_id", environmentID);
               ("project_id", projectID)]))
  ∧ (∀ reqID,
       ¬ (∃ a b, a ≠ "" ∧ b ≠ "" ∧ reqID = a +:+ "/" +:+ b) →
       ImportState reqID =
         ([AddError "Invalid import ID"
             ("Expected format: environment_id/project_id, got: " +:+ reqID)], []))
  ∧ (∀ fuel w ctx data r r1 p,
       waitForAgent fuel w ctx (ValueString (EnvironmentID data))
         (ValueString (ProjectID data)) (parseWaitTimeout data) r = Some (None, r1) →
       answerAction w (ncalls r1)
         (DeployProjectCall (ValueString (EnvironmentID data))
            (ValueString (ProjectID data)) (deployRequest data)) = None →
       answerProject w (S (ncalls r1)) (ValueString (EnvironmentID data))
         (ValueString (ProjectID data)) = inl p →
       ∃ data' r',
         Create fuel w ctx data r = Some ([], Some data', r')
         ∧ ID data' = StringValue (compositeID (ValueString (EnvironmentID data))
                                     (ValueString (ProjectID data)))
         ∧ EnvironmentID data' = EnvironmentID data
         ∧ ProjectID data' = ProjectID data
         ∧ (ValueString (EnvironmentID data) ≠ "" →
            ¬ In "/"%char (list_ascii_of_string (ValueString (EnvironmentID data))) →
            ValueString (ProjectID data) ≠ "" →
            ImportState (ValueString (ID data')) =
              ([], [("id", ValueString (ID data'));
                    ("environment_id", ValueString (EnvironmentID data));
                    ("project_id", ValueString (ProjectID data))]))).
Proof.
  assert (Himport : ∀ environmentID projectID,
            environmentID ≠ "" →
            ¬ In "/"%char (list_ascii_of_string environmentID) →
            projectID ≠ "" →
            ImportState (compositeID environmentID projectID) =
              ([], [("id", compositeID environmentID projectID);
                    ("environment_id", environmentID);
                    ("project_id", projectID)])).
  { intros environmentID projectID Henv Hslash Hproj.
    unfold ImportState, compositeID. rewrite SplitN_two.
    change ("/" +:+ projectID) with (String "/"%char projectID).
    rewrite Cut_first by done.
    destruct (String.eqb_spec environmentID ""); [contradiction|].
    destruct (String.eqb_spec projectID ""); [contradiction|]. done. }
  split; [|split; [|split]].
  - intros fuel w ctx data r diags data' r'. unfold Create.
    destruct (waitForAgent _ _ _ _ _ _ _) as [[[err|] r1]|]; try discriminate.
    destruct (DeployProject _ _ _ _ _) as [[e|] r2]; [discriminate|].
    destruct (GetProject _ _ _ _) as [[p|e] r3]; [|discriminate].
    intros [= _ <- _]. done.
  - exact Himport.
  - intros reqID Hnot. unfold ImportState. rewrite SplitN_two.
    destruct (Cut reqID "/"%char) as [[b a]|] eqn:Hcut; [|done].
    destruct (String.eqb_spec b "") as [->|Hb]; [done|].
    destruct (String.eqb_spec a "") as [->|Ha]; [done|].
    exfalso. apply Hnot. exists b, a. split; [done|]. split; [done|].
    by apply Cut_Some in Hcut.
  - intros fuel w ctx data r r1 p Hwait Hup Hget. unfold Create.
    rewrite Hwait.
    unfold DeployProject, remote. rewrite Hup.
    rewrite GetProject_eq, ncalls_called, Hget.
    eexists _, _. split; [reflexivity|]. cbn [ID EnvironmentID ProjectID ValueString].
    split; [done|]. split; [done|]. split; [done|]. apply Himport.
Qed.

(** ** C2: create *)

Lemma DeployProject_eq (w : World) (environmentID projectID : string)
    (req : ProjectDeployRequest) (r : Run) :
  DeployProject w environmentID projectID req r =
    (answerAction w (ncalls r) (DeployProjectCall environmentID projectID req),
     {| clock := clock r + Z.of_N (latency w (ncalls r));
        log := log r ++ [(clock r, Called (DeployProjectCall environmentID projectID req)
                                     (Z.of_N (latency w (ncalls r))))] |}).
Proof. reflexivity. Qed.

(** C2, as the code has it. [Create] first waits for the agent. When the
    wait succeeds, the next remote call is [DeployProject] (the up
    endpoint) with the [pull], [force_recreate] and [remove_orphans] of
    the spec, followed at most by one read of the project; when the wait
    fails, [Create] reports "Agent not reachable" and issues no further
    call. Neither the calls nor the diagnostics depend on the trigger
    map, which is only carried into the state. *)
Theorem create_deploys_once_agent_reachable (fuel : nat) (w : World) (ctx : Context)
    (data : ProjectDeploymentResourceModel) (r : Run) :
  let environmentID := ValueString (EnvironmentID data) in
  let projectID := ValueString (ProjectID data) in
  let up := DeployProjectCall environmentID projectID
              {| Req_Pull := ValueBool (Pull data);
                 Req_ForceRecreate := ValueBool (ForceRecreate data);
                 Req_RemoveOrphans := ValueBool (RemoveOrphans data) |} in
  (∀ r1,
     waitForAgent fuel w ctx environmentID projectID (parseWaitTimeout data) r
       = Some (None, r1) →
     ∃ diags st r',
       Create fuel w ctx data r = Some (diags, st, r')
       ∧ (callsOf (log r') = callsOf (log r1) ++ [up]
          ∨ callsOf (log r') =
              callsOf (log r1) ++ [up; GetProjectCall environmentID projectID]))
  ∧ (∀ err r1,
       waitForAgent fuel w ctx environmentID projectID (parseWaitTimeout data) r
         = Some (Some err, r1) →
       Create fuel w ctx data r =
         Some ([AddError "Agent not reachable" (Error err)], None, r1))
  ∧ (∀ t,
       Create fuel w ctx (withTriggers data t) r =
         option_map
           (λ out : list Diagnostic * option ProjectDeploymentResourceModel * Run,
              (out.1.1, option_map (λ st, withTriggers st t) out.1.2, out.2))
           (Create fuel w ctx data r)).
Proof.
  intros environmentID projectID up. split; [|split].
  - intros r1 Hwait. unfold Create. fold environmentID projectID. rewrite Hwait.
    rewrite DeployProject_eq. unfold deployRequest. fold up.
    destruct (answerAction w (ncalls r1) up) as [e|].
    + eexists _, _, _. split; [reflexivity|]. left. cbn [log].
      by rewrite callsOf_app.
    + rewrite GetProject_eq.
      destruct (answerProject w _ environmentID projectID) as [p|e];
        eexists _, _, _; (split; [reflexivity|]); right; cbn [log];
        by rewrite !callsOf_app, <- app_assoc.
  - intros err r1 Hwait. unfold Create. fold environmentID projectID.
    by rewrite Hwait.
  - intros t. unfold Create.
    change (parseWaitTimeout (withTriggers data t)) with (parseWaitTimeout data).
    change (deployRequest (withTriggers data t)) with (deployRequest data).
    cbn [withTriggers EnvironmentID ProjectID Pull ForceRecreate RemoveOrphans
         StopOnDelete Triggers WaitTimeout ID Status LastDeployedAt].
    destruct (waitForAgent _ _ _ _ _ _ _) as [[[err|] r1]|]; try done.
    destruct (DeployProject _ _ _ _ _) as [[e|] r2]; [done|].
    destruct (GetProject _ _ _ _) as [[p|e] r3]; done.
Qed.

(** [Update] starts with the redeploy call, carrying the planned
    options. *)
Lemma update_redeploys (w : World) (data : ProjectDeploymentResourceModel) (r : Run) :
  ∃ rest,
    callsOf (log (Update w data r).2) =
      callsOf (log r)
      ++ RedeployProjectCall (ValueString (EnvironmentID data))
           (ValueString (ProjectID data)) (deployRequest data) :: rest.
Proof.
  unfold Update, RedeployProject, remote.
  destruct (answerAction w _ _) as [e|]; cbn [snd log].
  - exists []. by rewrite callsOf_app.
  - rewrite GetProject_eq.
    destruct (answerProject w _ _ _) as [p|e]; cbn [snd log];
      eexists; by rewrite !callsOf_app, <- app_assoc.
Qed.

(** ** More on the deployment record *)

(** X1. [Read] issues one [GetProject]. It removes the record from the
    state, without an error, exactly when that call fails with a
    not-found error; any other failure is reported and the state is left
    as it was. *)
Theorem read_removes_record_iff_not_found (w : World)
    (data : ProjectDeploymentResourceModel) (r : Run) :
  let environmentID := ValueString (EnvironmentID data) in
  let projectID := ValueString (ProjectID data) in
  callsOf (log (Read w data r).2) =
    callsOf (log r) ++ [GetProjectCall environmentID projectID]
  ∧ ((Read w data r).1.2 = StateRemoved ↔
     ∃ e, answerProject w (ncalls r) environmentID projectID = inr e
          ∧ IsNotFound e = true)
  ∧ ((Read w data r).1.2 = StateRemoved → (Read w data r).1.1 = [])
  ∧ (∀ e, answerProject w (ncalls r) environmentID projectID = inr e →
       IsNotFound e = false →
       (Read w data r).1 =
         ([AddError "Failed to get project status" (Error e)], StateKept)).
Proof.
  intros environmentID projectID. unfold Read. fold environmentID projectID.
  rewrite GetProject_eq.
  destruct (answerProject w (ncalls r) environmentID projectID) as [p|e] eqn:Hans.
  - cbn [fst snd log]. split; [by rewrite callsOf_app|].
    split; [split; [discriminate|intros (e & [=] & _)]|].
    split; [discriminate|]. intros e [=].
  - destruct (IsNotFound e) eqn:Hnf; cbn [fst snd log].
    + split; [by rewrite callsOf_app|].
      split; [split; [eauto|done]|]. split; [done|].
      intros e' [= <-] Hnot. congruence.
    + split; [by rewrite callsOf_app|].
      split; [split; [discriminate|intros (e' & [= <-] & Hnf'); congruence]|].
      split; [discriminate|]. by intros e' [= <-] _.
Qed.

(** X2. A state written by [Read] differs from the prior state in
    [status] alone, which becomes the status the backend reported: the
    triggers, the options, the identifiers and [last_deployed_at] are
    those of the prior state. *)
Theorem read_changes_status_only (w : World)
    (data data' : ProjectDeploymentResourceModel) (r : Run) :
  (Read w data r).1.2 = StateSet data' →
  (∃ p, answerProject w (ncalls r) (ValueString (EnvironmentID data))
          (ValueString (ProjectID data)) = inl p
        ∧ Status data' = StringValue (Project_Status p))
  ∧ (Read w data r).1.1 = []
  ∧ ID data' = ID data
  ∧ EnvironmentID data' = EnvironmentID data
  ∧ ProjectID data' = ProjectID data
  ∧ Pull data' = Pull data
  ∧ ForceRecreate data' = ForceRecreate data
  ∧ RemoveOrphans data' = RemoveOrphans data
  ∧ StopOnDelete data' = StopOnDelete data
  ∧ Triggers data' = Triggers data
  ∧ WaitTimeout data' = WaitTimeout data
  ∧ LastDeployedAt data' = LastDeployedAt data.
Proof.
  unfold Read. rewrite GetProject_eq.
  destruct (answerProject w (ncalls r) _ _) as [p|e].
  - cbn [fst snd]. intros [= <-]. cbn. split; [by exists p|]. done.
  - destruct (IsNotFound e); discriminate.
Qed.

(** X3. [Update] compares nothing: its first call is [RedeployProject]
    with the planned options, whatever the prior state. When that call
    fails nothing else is called and no state is written; when it
    succeeds the project is read once, and a state is written only if
    that read succeeds: the planned attributes with the reported status
    and the time of the write. *)
Theorem update_redeploys_unconditionally (w : World)
    (data : ProjectDeploymentResourceModel) (r : Run) :
  let environmentID := ValueString (EnvironmentID data) in
  let projectID := ValueString (ProjectID data) in
  let redeploy := RedeployProjectCall environmentID projectID
                    {| Req_Pull := ValueBool (Pull data);
                       Req_ForceRecreate := ValueBool (ForceRecreate data);
                       Req_RemoveOrphans := ValueBool (RemoveOrphans data) |} in
  match answerAction w (ncalls r) redeploy with
  | Some e =>
      (Update w data r).1 = ([AddError "Failed to redeploy project" (Error e)], None)
      ∧ callsOf (log (Update w data r).2) = callsOf (log r) ++ [redeploy]
  | None =>
      callsOf (log (Update w data r).2) =
        callsOf (log r) ++ [redeploy; GetProjectCall environmentID projectID]
      ∧ match answerProject w (S (ncalls r)) environmentID projectID with
        | inr e =>
            (Update w data r).1 =
              ([AddError "Failed to get project status" (Error e)], None)
        | inl p =>
            (Update w data r).1 =
              ([], Some {| ID := ID data;
                           EnvironmentID := EnvironmentID data;
                           ProjectID := ProjectID data;
                           Pull := Pull data;
                           ForceRecreate := ForceRecreate data;
                           RemoveOrphans := RemoveOrphans data;
                           StopOnDelete := StopOnDelete data;
                           Triggers := Triggers data;
                           WaitTimeout := WaitTimeout data;
                           Status := StringValue (Project_Status p);
                           LastDeployedAt :=
                             StringValue (Format_RFC3339 (clock (Update w data r).2)) |})
        end
  end.
Proof.
  intros environmentID projectID redeploy.
  unfold Update, RedeployProject, remote, deployRequest.
  fold environmentID projectID redeploy.
  destruct (answerAction w (ncalls r) redeploy) as [e|].
  - cbn [fst snd log]. split; [done|]. by rewrite callsOf_app.
  - rewrite GetProject_eq, ncalls_called.
    destruct (answerProject w (S (ncalls r)) environmentID projectID) as [p|e];
      cbn [fst snd log clock]; (split; [by rewrite !callsOf_app, <- app_assoc|done]).
Qed.

(** X4. After a successful wait [Create] writes a state only when both
    the deployment and the read of the project succeed; that state is
    the plan with the composite identifier, the reported status and the
    time of the write. A failed deployment is reported without reading
    the project, and a failed read is reported although the deployment
    went through. *)
Theorem create_writes_state_after_deploy_and_read (fuel : nat) (w : World)
    (ctx : Context) (data : ProjectDeploymentResourceModel) (r r1 : Run) :
  let environmentID := ValueString (EnvironmentID data) in
  let projectID := ValueString (ProjectID data) in
  let up := DeployProjectCall environmentID projectID (deployRequest data) in
  waitForAgent fuel w ctx environmentID projectID (parseWaitTimeout data) r
    = Some (None, r1) →
  match answerAction w (ncalls r1) up with
  | Some e =>
      ∃ r2, Create fuel w ctx data r =
              Some ([AddError "Failed to deploy project" (Error e)], None, r2)
            ∧ callsOf (log r2) = callsOf (log r1) ++ [up]
  | None =>
      match answerProject w (S (ncalls r1)) environmentID projectID with
      | inr e =>
          ∃ r3, Create fuel w ctx data r =
                  Some ([AddError "Failed to get project status" (Error e)], None, r3)
      | inl p =>
          ∃ r3, Create fuel w ctx data r =
                  Some ([],
                        Some {| ID := StringValue (environmentID +:+ "/" +:+ projectID);
                                EnvironmentID := EnvironmentID data;
                                ProjectID := ProjectID data;
                                Pull := Pull data;
                                ForceRecreate := ForceRecreate data;
                                RemoveOrphans := RemoveOrphans data;
                                StopOnDelete := StopOnDelete data;
                                Triggers := Triggers data;
                                WaitTimeout := WaitTimeout data;
                                Status := StringValue (Project_Status p);
                                LastDeployedAt := StringValue (Format_RFC3339 (clock r3)) |},
                        r3)
      end
  end.
Proof.
  intros environmentID projectID up Hwait.
  unfold Create. fold environmentID projectID. rewrite Hwait.
  rewrite DeployProject_eq. fold up.
  destruct (answerAction w (ncalls r1) up) as [e|].
  - eexists. split; [reflexivity|]. cbn [log]. by rewrite callsOf_app.
  - rewrite GetProject_eq, ncalls_called.
    destruct (answerProject w (S (ncalls r1)) environmentID projectID) as [p|e];
      eexists; reflexivity.
Qed.

(** ** More on the reachability wait *)

Section WaitBounds.

Variables (w : World) (ctx : Context) (environmentID projectID : string).
Variables (timeout deadline : Z).

Local Abbreviation run := (waitRun w ctx environmentID projectID timeout deadline).

(** Each completed sleep takes at least five seconds and starts by the
    deadline: a run of [k] sleeps fits [k - 1] of them before it. *)
Lemma run_sleeps_fit k backoff r res r' :
  run k backoff r res r' →
  5 * Second ≤ backoff ≤ 30 * Second →
  (1 ≤ k)%nat →
  (Z.of_nat k - 1) * (5 * Second) ≤ deadline - clock r.
Proof.
  induction 1 as [b0 r p r1 Hget|b0 r e r1 Hget Hdl|b0 r e r1 r2 Hget Hdl Hsel
                 |k b0 r e r1 r2 res r' Hget Hdl Hsel Hrun IH];
    intros Hb Hk; try lia.
  apply GetProject_inv in Hget as (_ & Hclk & _ & _).
  apply select_after in Hsel as [-> _]. cbn [clock] in IH.
  destruct k as [|k]; [unfold Second in *; lia|].
  specialize (IH (nextBackoff_bounds _ Hb) ltac:(lia)).
  unfold Second in *. lia.
Qed.

(** A run that starts after the deadline probes once and does not
    sleep. *)
Lemma run_past_deadline k backoff r res r' :
  run k backoff r res r' → deadline < clock r → k = 0%nat.
Proof.
  destruct 1 as [b0 r p r1 Hget|b0 r e r1 Hget Hdl|b0 r e r1 r2 Hget Hdl Hsel
                |k b0 r e r1 r2 res r' Hget Hdl Hsel Hrun]; try done.
  intros Hpast. apply GetProject_inv in Hget as (_ & Hclk & _ & _). lia.
Qed.

(** The clock of a run does not go back. *)
Lemma run_clock_mono k backoff r res r' :
  run k backoff r res r' → 0 ≤ backoff → clock r ≤ clock r'.
Proof.
  induction 1 as [b0 r p r1 Hget|b0 r e r1 Hget Hdl|b0 r e r1 r2 Hget Hdl Hsel
                 |k b0 r e r1 r2 res r' Hget Hdl Hsel Hrun IH];
    intros Hb; apply GetProject_inv in Hget as (_ & Hclk & _ & _); try lia.
  - apply select_done in Hsel as (c & _ & _ & ->). cbn [clock]. lia.
  - apply select_after in Hsel as [-> _]. cbn [clock] in IH.
    specialize (IH (nextBackoff_nonneg _ Hb)). lia.
Qed.

End WaitBounds.

(** X5. Whatever the backend and the context do, a wait with a timeout
    that is not negative sleeps at most the timeout and thirty seconds
    more in total, every sleep it completes starts no later than the
    deadline, and a wait with a negative timeout does not sleep at
    all. *)
Theorem wait_sleeps_at_most_timeout_and_cap (fuel : nat) (w : World) (ctx : Context)
    (environmentID projectID : string) (timeout : Z) (r : Run)
    (res : option error) (r' : Run) :
  waitForAgent fuel w ctx environmentID projectID timeout r = Some (res, r') →
  (0 ≤ timeout →
   totalSlept (log r') - totalSlept (log r) ≤ timeout + 30 * Second)
  ∧ (timeout < 0 → totalSlept (log r') = totalSlept (log r))
  ∧ (∀ Δ t d, log r' = log r ++ Δ → (t, Slept d) ∈ Δ → t ≤ clock r + timeout).
Proof.
  unfold waitForAgent. intros Hwait.
  destruct (waitLoop_run _ _ _ _ _ _ _ _ _ _ _ Hwait) as [k Hrun].
  destruct (run_slept_bound _ _ _ _ _ _ _ _ _ _ _ Hrun ltac:(unfold Second; lia))
    as [Hpast Hleft].
  split; [intros Hpos; specialize (Hleft ltac:(lia)); lia|].
  split; [intros Hneg; apply Hpast; lia|].
  intros Δ t d HΔ Hin.
  destruct (run_waits _ _ _ _ _ _ _ _ _ _ _ Hrun ltac:(unfold Second; lia) Δ HΔ)
    as [Hs _].
  by destruct (Hs t d Hin).
Qed.

(** X6. A wait issues at most [timeout / 5s + 2] probes, and exactly one
    when the timeout is negative; it issues no other call. *)
Theorem wait_probes_are_bounded (fuel : nat) (w : World) (ctx : Context)
    (environmentID projectID : string) (timeout : Z) (r : Run)
    (res : option error) (r' : Run) :
  waitForAgent fuel w ctx environmentID projectID timeout r = Some (res, r') →
  ∃ n,
    callsOf (log r') = callsOf (log r) ++ repeat (GetProjectCall environmentID projectID) n
    ∧ (1 ≤ n)%nat
    ∧ (0 ≤ timeout → Z.of_nat n ≤ timeout / (5 * Second) + 2)
    ∧ (timeout < 0 → n = 1%nat).
Proof.
  unfold waitForAgent. intros Hwait.
  destruct (waitLoop_run _ _ _ _ _ _ _ _ _ _ _ Hwait) as [k Hrun].
  exists (S k). split; [by apply (run_calls _ _ _ _ _ _ _ _ _ _ _ Hrun)|].
  split; [lia|]. split.
  - intros Hpos. destruct k as [|k].
    + assert (0 ≤ timeout / (5 * Second)) by (apply Z.div_pos; unfold Second; lia). lia.
    + pose proof (run_sleeps_fit _ _ _ _ _ _ _ _ _ _ _ Hrun
                    ltac:(unfold Second; lia) ltac:(lia)) as Hfit.
      assert (Z.of_nat (S k) - 1 ≤ timeout / (5 * Second)).
      { apply Z.div_le_lower_bound; [unfold Second; lia|]. lia. }
      lia.
  - intros Hneg. f_equal.
    apply (run_past_deadline _ _ _ _ _ _ _ _ _ _ _ Hrun). lia.
Qed.

(** X7. The deadline test is strict: with a timeout of zero, a probe
    that fails without taking any time is followed by the full first
    sleep of five seconds, not by the time-out error. *)
Theorem wait_zero_timeout_still_sleeps (fuel : nat) (w : World) (ctx : Context)
    (environmentID projectID : string) (r : Run) (e : error)
    (res : option error) (r' : Run) :
  answerProject w (ncalls r) environmentID projectID = inr e →
  latency w (ncalls r) = 0%N →
  doneAt ctx = None →
  waitForAgent fuel w ctx environmentID projectID 0 r = Some (res, r') →
  ∃ Δ, log r' =
         log r ++ (clock r, Called (GetProjectCall environmentID projectID) 0)
               :: (clock r, Slept (5 * Second)) :: Δ
       ∧ clock r + 5 * Second ≤ clock r'.
Proof.
  intros Hans Hlat Hnone. unfold waitForAgent.
  destruct fuel as [|fuel]; [discriminate|].
  cbn [waitLoop]. rewrite GetProject_eq, Hans, Hlat. cbn [clock].
  change (Z.of_N 0) with 0. rewrite !Z.add_0_r.
  destruct (Z.gtb_spec (clock r) (clock r)) as [|_]; [lia|].
  rewrite select_never_cancelled by done. cbn [clock log].
  intros Hloop.
  destruct (waitLoop_run _ _ _ _ _ _ _ _ _ _ _ Hloop) as [k Hrun].
  destruct (run_extends _ _ _ _ _ _ _ _ _ _ _ Hrun) as [Δ HΔ]. cbn [log] in HΔ.
  exists Δ. split; [rewrite HΔ, <- !app_assoc; reflexivity|].
  pose proof (run_clock_mono _ _ _ _ _ _ _ _ _ _ _ Hrun
                ltac:(apply nextBackoff_nonneg; unfold Second; lia)) as Hmono.
  cbn [clock] in Hmono. lia.
Qed.

(** X8. The update of the backoff between rounds: from a value between
    five and thirty seconds it doubles the value, capped at thirty
    seconds; it never shrinks it, and thirty seconds is the only value
    it leaves unchanged. *)
Theorem nextBackoff_doubles_up_to_cap (backoff : Z) :
  5 * Second ≤ backoff ≤ 30 * Second →
  nextBackoff backoff = Z.min (2 * backoff) (30 * Second)
  ∧ backoff ≤ nextBackoff backoff ≤ 30 * Second
  ∧ (nextBackoff backoff = backoff ↔ backoff = 30 * Second).
Proof.
  unfold nextBackoff, Second. intros Hb.
  destruct (Z.ltb_spec backoff (30 * 1000000000)) as [Hlt|Hge].
  - destruct (Z.gtb_spec (backoff * 2) (30 * 1000000000)); lia.
  - lia.
Qed.

(** ** More on the import *)



(** X19. The composite identifier tells records apart as long as the
    environment identifiers contain no slash: two pairs with the same
    identifier are then the same pair. With a slash in the environment
    identifier two different pairs can share one identifier. *)
Theorem composite_id_is_injective_without_slash :
  (∀ environmentID1 projectID1 environmentID2 projectID2,
     ¬ In "/"%char (list_ascii_of_string environmentID1) →
     ¬ In "/"%char (list_ascii_of_string environmentID2) →
     compositeID environmentID1 projectID1 = compositeID environmentID2 projectID2 →
     environmentID1 = environmentID2 ∧ projectID1 = projectID2)
  ∧ compositeID "a/b" "c" = compositeID "a" "b/c".
Proof.
  split; [|reflexivity].
  intros e1 p1 e2 p2 H1 H2 Heq. unfold compositeID in Heq.
  change ("/" +:+ p1) with (String "/"%char p1) in Heq.
  change ("/" +:+ p2) with (String "/"%char p2) in Heq.
  pose proof (Cut_first e1 p1 "/"%char H1) as Hc1.
  pose proof (Cut_first e2 p2 "/"%char H2) as Hc2.
  rewrite Heq, Hc2 in Hc1. by injection Hc1 as -> ->.
Qed.

(** ** Lookups by name *)

Lemma findProjectByName_Some (projects : list Project) (name : string) (p : Project) :
  findProjectByName projects name = Some p →
  Project_Name p = name
  ∧ ∃ before after, projects = before ++ p :: after
                    ∧ ∀ q, q ∈ before → Project_Name q ≠ name.
Proof.
  induction projects as [|q projects IH]; simpl; [discriminate|].
  destruct (String.eqb_spec (Project_Name q) name) as [Heq|Hne].
  - intros [= <-]. split; [done|]. exists [], projects. split; [done|].
    intros q' Hin. by apply elem_of_nil in Hin.
  - intros Hfind. destruct (IH Hfind) as (Hname & before & after & -> & Hbefore).
    split; [done|]. exists (q :: before), after. split; [done|].
    intros q' Hin. apply elem_of_cons in Hin as [->|Hin]; [done|by apply Hbefore].
Qed.

Lemma findProjectByName_None (projects : list Project) (name : string) :
  findProjectByName projects name = None →
  ∀ q, q ∈ projects → Project_Name q ≠ name.
Proof.
  induction projects as [|q projects IH]; simpl.
  - intros _ q Hin. by apply elem_of_nil in Hin.
  - destruct (String.eqb_spec (Project_Name q) name) as [Heq|Hne]; [discriminate|].
    intros Hfind q' Hin. apply elem_of_cons in Hin as [->|Hin]; [done|by apply IH].
Qed.

(** X10. [GetProjectByName] hands on the error of the listing as it is;
    from a listing it returns the first project, in the order of the
    listing, whose name is the one asked for; and when no listed project
    has that name it returns an error that [IsNotFound] recognises. *)
Theorem project_by_name_is_first_match (name : string) :
  (∀ err, GetProjectByName (inr err) name = inr err)
  ∧ (∀ projects p,
       GetProjectByName (inl projects) name = inl p →
       Project_Name p = name
       ∧ ∃ before after, projects = before ++ p :: after
                         ∧ ∀ q, q ∈ before → Project_Name q ≠ name)
  ∧ (∀ projects e,
       GetProjectByName (inl projects) name = inr e →
       IsNotFound e = true ∧ ∀ q, q ∈ projects → Project_Name q ≠ name)
  ∧ (∀ projects p,
       p ∈ projects → Project_Name p = name →
       ∃ p', GetProjectByName (inl projects) name = inl p').
Proof.
  split; [done|]. split; [|split].
  - intros projects p. unfold GetProjectByName.
    destruct (findProjectByName projects name) as [p'|] eqn:Hfind; [|discriminate].
    intros [= <-]. by apply findProjectByName_Some.
  - intros projects e. unfold GetProjectByName.
    destruct (findProjectByName projects name) as [p'|] eqn:Hfind; [discriminate|].
    intros [= <-]. split; [done|]. by apply findProjectByName_None.
  - intros projects p Hin Hname. unfold GetProjectByName.
    destruct (findProjectByName projects name) as [p'|] eqn:Hfind; [by eauto|].
    exfalso. by apply (findProjectByName_None _ _ Hfind p).
Qed.

Lemma findContainerByName_Some (containers : list ContainerDetail) (name : string)
    (c : ContainerDetail) :
  findContainerByName containers name = Some c →
  Container_Name c = name ∧ c ∈ containers.
Proof.
  induction containers as [|c' containers IH]; simpl; [discriminate|].
  destruct (String.eqb_spec (Container_Name c') name) as [Heq|Hne].
  - intros [= <-]. split; [done|]. apply elem_of_cons. by left.
  - intros Hfind. destruct (IH Hfind) as [Hname Hin]. split; [done|].
    apply elem_of_cons. by right.
Qed.

(** The search calls for the containers of a prefix of the projects, in
    their order, and for nothing else; it visits all of them when it
    finds nothing. *)
Lemma searchProjects_calls (w : World) (environmentID name : string)
    (projects : list Project) (r : Run) :
  ∃ n,
    callsOf (log (searchProjects w environmentID name projects r).2) =
      callsOf (log r)
      ++ map (λ p, GetProjectContainersCall environmentID (Project_ID p)) (take n projects)
    ∧ ((searchProjects w environmentID name projects r).1 = None →
       take n projects = projects)
    ∧ (∀ c, (searchProjects w environmentID name projects r).1 = Some c →
         Container_Name c = name).
Proof.
  revert r. induction projects as [|p projects IH]; intros r.
  - exists 0%nat. simpl. by rewrite app_nil_r.
  - cbn [searchProjects]. unfold GetProjectContainers, remote.
    set (r1 := {| clock := _; log := _ |}).
    assert (Hr1 : callsOf (log r1) =
                  callsOf (log r) ++ [GetProjectContainersCall environmentID (Project_ID p)])
      by (unfold r1; cbn [log]; by rewrite callsOf_app).
    destruct (answerContainers w (ncalls r) environmentID (Project_ID p)) as [cs|e].
    + destruct (findContainerByName cs name) as [c|] eqn:Hfind.
      * exists 1%nat. cbn [fst snd take map]. rewrite take_0. cbn [map].
        split; [done|]. split; [discriminate|].
        intros c' [= <-]. by apply findContainerByName_Some in Hfind as [? _].
      * destruct (IH r1) as (n & Hcalls & Hnone & Hsome).
        exists (S n). cbn [take map]. rewrite Hcalls, Hr1, <- app_assoc.
        split; [done|]. split; [|done].
        intros Hn. by rewrite (Hnone Hn).
    + destruct (IH r1) as (n & Hcalls & Hnone & Hsome).
      exists (S n). cbn [take map]. rewrite Hcalls, Hr1, <- app_assoc.
      split; [done|]. split; [|done].
      intros Hn. by rewrite (Hnone Hn).
Qed.

(** X11. [GetContainerByName] asks for the containers of the listed
    projects one by one, in the order of the listing, and stops at the
    first project that has a container of the name asked for, which it
    returns; it issues no other call. *)
Theorem container_by_name_stops_at_first_match (w : World)
    (environmentID name : string) (projects : list Project) (r : Run) :
  ∃ n,
    callsOf (log (GetContainerByName w environmentID name (inl projects) r).2) =
      callsOf (log r)
      ++ map (λ p, GetProjectContainersCall environmentID (Project_ID p)) (take n projects)
    ∧ (∀ c, (GetContainerByName w environmentID name (inl projects) r).1 = inl c →
         Container_Name c = name)
    ∧ (∀ e, (GetContainerByName w environmentID name (inl projects) r).1 = inr e →
         take n projects = projects ∧ IsNotFound e = true).
Proof.
  destruct (searchProjects_calls w environmentID name projects r)
    as (n & Hcalls & Hnone & Hsome).
  exists n. unfold GetContainerByName.
  destruct (searchProjects w environmentID name projects r) as [[c|] r'] eqn:Hsearch;
    cbn [fst snd] in *.
  - split; [done|]. split; [|discriminate]. intros c' [= <-]. by apply Hsome.
  - split; [done|]. split; [discriminate|]. intros e [= <-]. split; [by apply Hnone|done].
Qed.

(** The search finds nothing when no container call is answered. *)
Lemma searchProjects_all_fail (w : World) (environmentID name : string)
    (projects : list Project) (r : Run) :
  (∀ n projectID, ∃ e, answerContainers w n environmentID projectID = inr e) →
  (searchProjects w environmentID name projects r).1 = None.
Proof.
  intros Hfail. revert r. induction projects as [|p projects IH]; intros r; [done|].
  cbn [searchProjects]. unfold GetProjectContainers, remote.
  destruct (Hfail (ncalls r) (Project_ID p)) as [e ->]. apply IH.
Qed.

(** X12. [GetContainerByName] drops the errors of the container calls:
    when the listing succeeded and every container call fails, for
    whatever reason, the result is the not-found error "container not
    found", and none of the failures is reported. *)
Theorem container_by_name_hides_fetch_errors (w : World)
    (environmentID name : string) (projects : list Project) (r : Run) :
  (∀ n projectID, ∃ e, answerContainers w n environmentID projectID = inr e) →
  (GetContainerByName w environmentID name (inl projects) r).1 =
    inr (APIError 404 "container not found" "")
  ∧ IsNotFound (APIError 404 "container not found" "") = true
  ∧ callsOf (log (GetContainerByName w environmentID name (inl projects) r).2) =
      callsOf (log r)
      ++ map (λ p, GetProjectContainersCall environmentID (Project_ID p)) projects.
Proof.
  intros Hfail.
  pose proof (searchProjects_all_fail w environmentID name projects r Hfail) as Hnone.
  destruct (searchProjects_calls w environmentID name projects r)
    as (n & Hcalls & Hall & _).
  unfold GetContainerByName.
  destruct (searchProjects w environmentID name projects r) as [[c|] r'];
    cbn [fst snd] in *; [discriminate|].
  split; [done|]. split; [done|]. by rewrite Hcalls, (Hall eq_refl).
Qed.

(** ** The client *)

Lemma TrimSuffix_cases (s suffix : string) :
  (TrimSuffix s suffix = s ∧ ∀ u, s ≠ u +:+ suffix ∨ suffix = "")
  ∨ s = TrimSuffix s suffix +:+ suffix.
Proof.
  induction s as [|c s IH].
  - cbn [TrimSuffix]. destruct (String.eqb_spec "" suffix) as [<-|Hne].
    + by right.
    + left. split; [done|]. intros u. left. intros Heq.
      destruct u; simpl in Heq; [done|discriminate].
  - cbn [TrimSuffix]. destruct (String.eqb_spec (String c s) suffix) as [<-|Hne].
    + by right.
    + destruct IH as [[Hsame Hno]|Hcut].
      * left. rewrite Hsame. split; [done|]. intros u.
        destruct (Hno (match u with EmptyString => "" | String _ u' => u' end))
          as [Hno'|Hempty]; [|by right].
        left. intros Heq. destruct u as [|c' u]; simpl in Heq; [done|].
        injection Heq as _ Heq. by apply Hno'.
      * right. change (String c s = String c (TrimSuffix s suffix +:+ suffix)).
        f_equal. exact Hcut.
Qed.

Lemma TrimSuffix_slash_empty (s : string) :
  TrimSuffix s "/" = "" ↔ s = "" ∨ s = "/".
Proof.
  split.
  - intros Hempty. destruct (TrimSuffix_cases s "/") as [[Hsame _]|Hcut].
    + left. by rewrite <- Hsame.
    + right. by rewrite Hcut, Hempty.
  - intros [->| ->]; reflexivity.
Qed.

(** X13. [New] fails exactly for the URLs [""] and ["/"]. Otherwise the
    client's base URL is the URL without one trailing slash (the URL
    itself when it has none), is not empty, and the API key is taken
    over; a second trailing slash stays. *)
Theorem client_base_url_drops_one_slash (cfg : Config) :
  ((∃ e, New cfg = inr e) ↔ Config_URL cfg = "" ∨ Config_URL cfg = "/")
  ∧ (∀ c, New cfg = inl c →
       BaseURL c ≠ ""
       ∧ APIKey c = Config_APIKey cfg
       ∧ (Config_URL cfg = BaseURL c +:+ "/"
          ∨ (Config_URL cfg = BaseURL c ∧ ∀ u, Config_URL cfg ≠ u +:+ "/"))).
Proof.
  unfold New.
  destruct (String.eqb_spec (TrimSuffix (Config_URL cfg) "/") "") as [Hempty|Hne].
  - split.
    + split; [intros _; by apply TrimSuffix_slash_empty|eauto].
    + intros c [=].
  - split.
    + split; [intros [e [=]]|].
      intros Hurl. apply TrimSuffix_slash_empty in Hurl. contradiction.
    + intros c [= <-]. cbn. split; [done|]. split; [done|].
      destruct (TrimSuffix_cases (Config_URL cfg) "/") as [[Hsame Hno]|Hcut].
      * right. split; [done|]. intros u. by destruct (Hno u).
      * by left.
Qed.

Section TransportProperties.

Variables Payload Decoded : Type.
Variable json_Marshal : Payload → string + error.
Variable json_Unmarshal : string → Decoded + error.
Variable json_Unmarshal_APIError : string → (string * string) + error.
Variable Query_Encode : gmap string (list string) → string.
Variable NewRequestWithContext : string → string → option string → option error.
Variable HTTPClient_Do : HTTPRequest → HTTPResponse + error.

Local Abbreviation build :=
  (buildRequest Payload json_Marshal Query_Encode NewRequestWithContext).
Local Abbreviation do :=
  (Do Payload Decoded json_Marshal json_Unmarshal json_Unmarshal_APIError Query_Encode
      NewRequestWithContext HTTPClient_Do).

(** X14. A response with a status of 400 or more always makes [Do]
    return an error and decode nothing into [Result]. The error is an
    [APIError] only when the body parses as one, and then carries the
    status of the response; so [IsNotFound] holds of the error exactly
    when the status is 404 and the body parses: a 404 with a body that
    does not parse is not a not-found error. *)
Theorem do_error_status_classification (c : Client) (req : Request Payload)
    (httpReq : HTTPRequest) (status : Z) (body : string) :
  build c req = inl httpReq →
  HTTPClient_Do httpReq = inl {| HTTP_StatusCode := status; HTTP_ReadAll := inl body |} →
  400 ≤ status →
  ∃ e, do c req = (Some e, None)
       ∧ (∀ message detail,
            json_Unmarshal_APIError body = inl (message, detail) →
            e = APIError status message detail)
       ∧ (∀ err, json_Unmarshal_APIError body = inr err → As_APIError e = None)
       ∧ (IsNotFound e = true ↔
          status = 404 ∧ ∃ message detail,
                           json_Unmarshal_APIError body = inl (message, detail)).
Proof.
  intros Hbuild Hresp Hstatus. unfold Do. rewrite Hbuild, Hresp.
  unfold handleResponse. cbn [HTTP_ReadAll HTTP_StatusCode].
  destruct (Z.geb_spec status 400) as [_|]; [|lia].
  destruct (json_Unmarshal_APIError body) as [[m d]|err].
  - eexists. split; [reflexivity|]. split; [by intros m' d' [= <- <-]|].
    split; [discriminate|]. unfold IsNotFound. cbn [As_APIError].
    rewrite Z.eqb_eq. split; [eauto|by intros [? _]].
  - eexists. split; [reflexivity|]. split; [discriminate|]. split; [done|].
    unfold IsNotFound. cbn [As_APIError]. split; [discriminate|].
    intros (_ & m & d & [=]).
Qed.

(** X15. [Do] returns no error exactly when the request could be built,
    the transport answered, the body could be read, the status is below
    400, and the body, if [Result] is set and the body is not empty,
    decodes. A value is decoded into [Result] only on such a return, and
    only from a body that is not empty. *)
Theorem do_succeeds_iff (c : Client) (req : Request Payload) :
  ((do c req).1 = None ↔
   ∃ httpReq status body,
     build c req = inl httpReq
     ∧ HTTPClient_Do httpReq =
         inl {| HTTP_StatusCode := status; HTTP_ReadAll := inl body |}
     ∧ status < 400
     ∧ (Request_Result req = false ∨ body = ""
        ∨ ∃ v, json_Unmarshal body = inl v))
  ∧ (∀ v, (do c req).2 = Some v →
       (do c req).1 = None ∧ Request_Result req = true
       ∧ ∃ httpReq status body,
           build c req = inl httpReq
           ∧ HTTPClient_Do httpReq =
               inl {| HTTP_StatusCode := status; HTTP_ReadAll := inl body |}
           ∧ body ≠ "" ∧ json_Unmarshal body = inl v).
Proof.
  unfold Do. destruct (build c req) as [httpReq|berr] eqn:Hbuild.
  2: { split; [split; [discriminate|intros (? & ? & ? & [=] & _)]|intros v [=]]. }
  destruct (HTTPClient_Do httpReq) as [[status [body|rerr]]|terr] eqn:Hresp.
  3: { split; [split; [discriminate|]|intros v [=]].
       intros (h & s & b & [= <-] & Hr & _). congruence. }
  2: { unfold handleResponse. cbn [HTTP_ReadAll].
       split; [split; [discriminate|]|intros v [=]].
       intros (h & s & b & [= <-] & Hr & _). congruence. }
  unfold handleResponse. cbn [HTTP_ReadAll HTTP_StatusCode].
  destruct (Z.geb_spec status 400) as [Hge|Hlt].
  { destruct (json_Unmarshal_APIError body) as [[m d]|err]; cbn [fst snd];
      (split; [split; [discriminate|]|intros v [=]]);
      intros (h & s & b & [= <-] & Hr & Hs & _); rewrite Hresp in Hr;
      injection Hr as -> ->; lia. }
  destruct (Request_Result req) eqn:Hres; cbn [andb].
  - destruct (Nat.ltb_spec 0 (String.length body)) as [Hlen|Hlen].
    + assert (Hne : body ≠ "") by (intros ->; simpl in Hlen; lia).
      destruct (json_Unmarshal body) as [v|err] eqn:Hdec; cbn [fst snd].
      * split.
        -- split; [|done]. intros _. exists httpReq, status, body.
           split; [done|]. split; [done|]. split; [lia|]. right. right. eauto.
        -- intros v' [= <-]. split; [done|]. split; [done|].
           exists httpReq, status, body. done.
      * split; [split; [discriminate|]|intros v [=]].
        intros (h & s & b & [= <-] & Hr & _ & Hcase). rewrite Hresp in Hr.
        injection Hr as -> ->.
        destruct Hcase as [?|[?|[v Hv]]]; [discriminate|done|congruence].
    + cbn [fst snd]. split; [|intros v [=]]. split; [|done]. intros _.
      exists httpReq, status, body. split; [done|]. split; [done|]. split; [lia|].
      right. left. destruct body; [done|simpl in Hlen; lia].
  - cbn [fst snd]. split; [|intros v [=]]. split; [|done]. intros _.
    exists httpReq, status, body. split; [done|]. split; [done|]. split; [lia|].
    by left.
Qed.

(** X16. A request that [Do] hands to the transport has the method of
    the call, asks for and announces JSON, and carries the [X-API-Key]
    header exactly when the client has a non-empty API key, with that
    key; its URL is the base URL followed by the path when there is no
    query. *)
Theorem do_sends_api_key_iff_set (c : Client) (req : Request Payload)
    (httpReq : HTTPRequest) :
  build c req = inl httpReq →
  HTTP_Method httpReq = Request_Method req
  ∧ HTTP_Header httpReq !! "Content-Type" = Some "application/json"
  ∧ HTTP_Header httpReq !! "Accept" = Some "application/json"
  ∧ HTTP_Header httpReq !! "X-API-Key" =
      (if String.eqb (APIKey c) "" then None else Some (APIKey c))
  ∧ (Request_Query req = ∅ → HTTP_URL httpReq = BaseURL c +:+ Request_Path req)
  ∧ (Request_Body req = None → HTTP_Body httpReq = None).
Proof.
  unfold buildRequest. intros Hbuild.
  destruct (Request_Body req) as [payload|] eqn:Hbody.
  - destruct (json_Marshal payload) as [bytes|err]; [|discriminate].
    destruct (NewRequestWithContext _ _ _); [discriminate|].
    injection Hbuild as <-. cbn.
    split; [done|].
    destruct (String.eqb (APIKey c) ""); cbn [negb];
      (split; [by simplify_map_eq|]); (split; [by simplify_map_eq|]);
      (split; [by simplify_map_eq|]); (split; [|done]);
      intros ->; by rewrite map_size_empty.
  - destruct (NewRequestWithContext _ _ _); [discriminate|].
    injection Hbuild as <-. cbn.
    split; [done|].
    destruct (String.eqb (APIKey c) ""); cbn [negb];
      (split; [by simplify_map_eq|]); (split; [by simplify_map_eq|]);
      (split; [by simplify_map_eq|]); (split; [|done]);
      intros ->; by rewrite map_size_empty.
Qed.

End TransportProperties.

(** ** More on the project status *)

(** X17. When the project cannot be read, [Read] of the project status
    reports that error, writes no state and does not ask for the
    containers. *)
Theorem status_read_stops_without_project (w : World)
    (data : ProjectStatusDataSourceModel) (r : Run) (e : error) :
  answerProject w (ncalls r) (ValueString (DS_EnvironmentID data))
    (ValueString (DS_ProjectID data)) = inr e →
  (ProjectStatusDataSource_Read w data r).1 =
    ([AddError "Failed to read project status" (Error e)], None)
  ∧ callsOf (log (ProjectStatusDataSource_Read w data r).2) =
      callsOf (log r) ++ [GetProjectCall (ValueString (DS_EnvironmentID data))
                            (ValueString (DS_ProjectID data))].
Proof.
  intros Hans. unfold ProjectStatusDataSource_Read.
  rewrite GetProject_eq, Hans. cbn [fst snd log]. split; [done|].
  by rewrite callsOf_app.
Qed.

(** X18. In the object built for a container no attribute is null or
    unknown: the image and the health are known strings even when they
    are empty, and the ports are a known list with one object for each
    port, in order, empty when there is none. The containers of the
    state, when they are a known list, have as many elements as what
    they were built from. *)
Theorem container_objects_are_fully_known (c : ContainerDetail) :
  attr_id (containerObject c) = StringValue (Container_ID c)
  ∧ attr_name (containerObject c) = StringValue (Container_Name c)
  ∧ attr_image (containerObject c) = StringValue (Container_Image c)
  ∧ attr_status (containerObject c) = StringValue (Container_Status c)
  ∧ attr_health (containerObject c) = StringValue (Container_Health c)
  ∧ attr_ports (containerObject c) = ListValue (map portObject (Container_Ports c))
  ∧ (∀ project res l,
       containersAttribute project res = ListValue l →
       l ≠ []
       ∧ match res with
         | inl containers => length l = length containers
         | inr _ => length l = length (Project_Services project)
         end).
Proof.
  unfold containerObject. cbn.
  split; [done|]. split; [done|].
  split; [by destruct (String.eqb_spec (Container_Image c) "") as [->|]|].
  split; [done|].
  split; [by destruct (String.eqb_spec (Container_Health c) "") as [->|]|].
  split; [by destruct (Container_Ports c)|].
  intros project [containers|err] l; unfold containersAttribute.
  - destruct containers as [|x xs]; [discriminate|]. simpl. intros [= <-].
    split; [done|]. simpl. by rewrite length_map.
  - destruct (Project_Services project) as [|x xs]; [discriminate|]. simpl.
    intros [= <-]. split; [done|]. simpl. by rewrite length_map.
Qed.

End GoRuntime.

(** ** Instances *)


(** A probe that succeeds on its third call: the wait sleeps 5s and 10s,
    issues three probes and stops there. *)
Example wait_ready_on_third_probe :
  waitForAgent sampleDurationString 30 readyOnThirdProbe background
    "env-1" "proj-1" (2 * Minute) startRun = Some (None, sampleAfterWait).
Proof. vm_compute. reflexivity. Qed.

Lemma wait_polls_with_backoff_witness :
  (enoughFuel (2 * Minute) ≤ 30)%nat
  ∧ (∃ res r' k,
       waitForAgent sampleDurationString 30 readyOnThirdProbe background
         "env-1" "proj-1" (2 * Minute) startRun = Some (res, r')
       ∧ sleepsOf (log r') = sleepsOf (log startRun) ++ map backoffSeq (seq 0 k)
       ∧ callsOf (log r') =
           callsOf (log startRun) ++ repeat (GetProjectCall "env-1" "proj-1") (S k))
  ∧ (2 < 30)%nat
  ∧ (∀ i, (i < 2)%nat →
          roundRetries readyOnThirdProbe background "env-1" "proj-1"
            (clock startRun + 2 * Minute) startRun i)
  ∧ sleepsOf (log (afterRounds readyOnThirdProbe "env-1" "proj-1" 2 startRun)) =
      sleepsOf (log startRun) ++ map backoffSeq (seq 0 2)
  ∧ waitForAgent sampleDurationString 30 readyOnThirdProbe background
      "env-1" "proj-1" (2 * Minute) startRun =
    Some (None,
          afterProbe readyOnThirdProbe "env-1" "proj-1"
            (afterRounds readyOnThirdProbe "env-1" "proj-1" 2 startRun)).
Proof.
  assert (Hfuel : (enoughFuel (2 * Minute) ≤ 30)%nat) by (vm_compute; lia).
  assert (Hk : (2 < 30)%nat) by lia.
  assert (Hrounds : ∀ i, (i < 2)%nat →
            roundRetries readyOnThirdProbe background "env-1" "proj-1"
              (clock startRun + 2 * Minute) startRun i).
  { intros i Hi. destruct i as [|[|i]]; [| |lia];
      (split; [eexists; reflexivity|]);
      (split; [vm_compute; discriminate|intros c Hc; discriminate Hc]). }
  split; [exact Hfuel|]. split.
  { destruct (proj1 (wait_polls_with_backoff sampleDurationString readyOnThirdProbe
                       background "env-1" "proj-1" (2 * Minute)) 30%nat startRun Hfuel)
      as (res & r' & k & Hrun & Hsleeps & Hcalls & _).
    exists res, r', k. split; [exact Hrun|]. split; [exact Hsleeps|exact Hcalls]. }
  split; [exact Hk|]. split; [exact Hrounds|].
  destruct (proj2 (proj2 (proj2 (proj2
              (wait_polls_with_backoff sampleDurationString readyOnThirdProbe
                 background "env-1" "proj-1" (2 * Minute))))) 30%nat startRun 2%nat
              Hk Hrounds) as (Hsleeps & _ & Hready & _).
  split; [exact Hsleeps|].
  apply (Hready sampleProject). reflexivity.
Defined.

(** A context cancelled two seconds into the first sleep: the round
    returns [context.Canceled] at two seconds and probes no more. *)
Lemma wait_cancelled_during_sleep_witness :
  doneAt (cancelledAt (2 * Second)) = Some (2 * Second)
  ∧ waitLoop sampleDurationString 1 unreachableWorld (cancelledAt (2 * Second))
      "env-1" "proj-1" (2 * Minute) (2 * Minute) (5 * Second) startRun =
    Some (Some Canceled,
          {| clock := 2 * Second;
             log := [(0, Called (GetProjectCall "env-1" "proj-1") 0);
                     (0, Interrupted (5 * Second) (2 * Second))] |}).
Proof.
  split; [reflexivity|].
  apply (proj1 (wait_cancelled_during_sleep sampleDurationString unreachableWorld
                  (cancelledAt (2 * Second)) "env-1" "proj-1" (2 * Minute) (2 * Second)
                  eq_refl)
           0%nat (2 * Minute) (5 * Second) startRun (APIError 503 "agent offline" ""));
    [reflexivity | vm_compute; discriminate | vm_compute; reflexivity].
Defined.

(** A one-second timeout against an agent that never answers. *)
Lemma wait_one_second_timeout_witness :
  (2 ≤ 2)%nat
  ∧ doneAt background = None
  ∧ ∃ e r',
      waitForAgent sampleDurationString 2 unreachableWorld background
        "env-1" "proj-1" (1 * Second) startRun =
        Some (Some (timeoutError sampleDurationString (1 * Second) e), r')
      ∧ totalSlept (log r') - totalSlept (log startRun) - 1 * Second < backoffSeq 0.
Proof.
  split; [lia|]. split; [reflexivity|].
  destruct (wait_one_second_timeout sampleDurationString 2 unreachableWorld background
              "env-1" "proj-1" startRun ltac:(lia) eq_refl
              (λ n, ex_intro _ (APIError 503 "agent offline" "") eq_refl))
    as (e & r' & Hrun & _ & Hover & _).
  exists e, r'. split; [exact Hrun|exact Hover].
Defined.

Example one_second_timeout_run :
  waitForAgent sampleDurationString 2 unreachableWorld background
    "env-1" "proj-1" (1 * Second) startRun =
    Some (Some (wrapError "timed out waiting for agent after 1s: API error (status 503): agent offline"
                  (APIError 503 "agent offline" "")),
          {| clock := 5 * Second;
             log := [(0, Called (GetProjectCall "env-1" "proj-1") 0);
                     (0, Slept (5 * Second));
                     (5 * Second, Called (GetProjectCall "env-1" "proj-1") 0)] |}).
Proof. vm_compute. reflexivity. Qed.

(** The default [stop_on_delete]: nothing is called. *)
Lemma delete_without_stop_witness :
  ValueBool (StopOnDelete sampleSpec) = false
  ∧ Delete unreachableWorld sampleSpec startRun = ([], startRun).
Proof.
  split; [reflexivity|].
  apply (delete_without_stop_calls_nothing unreachableWorld sampleSpec startRun).
  reflexivity.
Defined.

(** [stop_on_delete] against a project that is already gone: the 404 of
    the stop call is not an error of the destroy. *)
Lemma delete_with_stop_witness :
  ValueBool (StopOnDelete sampleStopping) = true
  ∧ callsOf (log (Delete unreachableWorld sampleStopping startRun).2) =
      [StopProjectCall "env-1" "proj-1"]
  ∧ (Delete unreachableWorld sampleStopping startRun).1 = [].
Proof.
  split; [reflexivity|].
  pose proof (delete_with_stop_is_idempotent unreachableWorld sampleStopping startRun eq_refl)
    as (Hcalls & _ & Hgone & _).
  split; [exact Hcalls|].
  apply (Hgone (APIError 404 "project not found" "")); [reflexivity|].
  exists "project not found", "". reflexivity.
Defined.

(** The container list fails: the containers are the two services. *)
Lemma status_fallback_witness :
  answerProject containersUnavailable (ncalls startRun) "env-1" "proj-1" = inl sampleProject
  ∧ ∃ data' r',
      ProjectStatusDataSource_Read containersUnavailable sampleStatusConfig startRun =
        ([], Some data', r')
      ∧ DS_Containers data' = ListValue (map serviceObject (Project_Services sampleProject)).
Proof.
  split; [reflexivity|].
  destruct (status_falls_back_only_on_error containersUnavailable sampleStatusConfig
              startRun sampleProject eq_refl) as (data' & r' & Hread & _ & Hfallback).
  exists data', r'. split; [exact Hread|].
  apply Hfallback. discriminate.
Defined.

(** An empty container list that was served is not replaced by the
    services. *)
Example status_empty_list_is_null :
  DS_Containers
    <$> (ProjectStatusDataSource_Read readyOnThirdProbe sampleStatusConfig
           {| clock := 0; log := [(0, Called (GetProjectCall "env-1" "proj-1") 0);
                                  (0, Called (GetProjectCall "env-1" "proj-1") 0)] |}).1.2
  = Some ListNull.
Proof. vm_compute. reflexivity. Qed.

(** The identifier of the sample record: [Create] writes it once the
    agent answers, and it imports to its two parts. *)
Lemma composite_id_witness :
  "env-1" ≠ "" ∧ "proj-1" ≠ ""
  ∧ ImportState (compositeID "env-1" "proj-1") =
      ([], [("id", "env-1/proj-1"); ("environment_id", "env-1"); ("project_id", "proj-1")])
  ∧ waitForAgent sampleDurationString 30 readyOnThirdProbe background "env-1" "proj-1"
      (parseWaitTimeout sampleParseDuration sampleSpec) startRun
    = Some (None, sampleAfterWait)
  ∧ ∃ data' r',
      Create sampleParseDuration sampleDurationString sampleFormatRFC3339
        30 readyOnThirdProbe background sampleSpec startRun
      = Some ([], Some data', r')
      ∧ ID data' = StringValue (compositeID "env-1" "proj-1")
      ∧ ImportState (ValueString (ID data')) =
          ([], [("id", ValueString (ID data'));
                ("environment_id", "env-1"); ("project_id", "proj-1")]).
Proof.
  assert (Henv : "env-1" ≠ "") by discriminate.
  assert (Hproj : "proj-1" ≠ "") by discriminate.
  assert (Hslash : ¬ In "/"%char (list_ascii_of_string "env-1"))
    by (vm_compute; intuition discriminate).
  assert (Hwait :
    waitForAgent sampleDurationString 30 readyOnThirdProbe background "env-1" "proj-1"
      (parseWaitTimeout sampleParseDuration sampleSpec) startRun
      = Some (None, sampleAfterWait)) by (vm_compute; reflexivity).
  split; [exact Henv|]. split; [exact Hproj|].
  split.
  { exact (proj1 (proj2 (composite_id_round_trips sampleParseDuration sampleDurationString
                           sampleFormatRFC3339)) "env-1" "proj-1" Henv Hslash Hproj). }
  split; [exact Hwait|].
  destruct (proj2 (proj2 (proj2 (composite_id_round_trips sampleParseDuration
                                   sampleDurationString sampleFormatRFC3339)))
              30%nat readyOnThirdProbe background sampleSpec startRun sampleAfterWait
              sampleProject Hwait eq_refl eq_refl)
    as (data' & r' & Hcreate & Hid & _ & _ & Himport).
  exists data', r'. split; [exact Hcreate|]. split; [exact Hid|].
  exact (Himport Henv Hslash Hproj).
Defined.

Example import_rejects_leading_slash :
  (ImportState "/proj-1").1 =
    [AddError "Invalid import ID" "Expected format: environment_id/project_id, got: /proj-1"].
Proof. vm_compute. reflexivity. Qed.

(** A timeout of three minutes is taken as written. *)
Lemma parseWaitTimeout_witness :
  ValueString (WaitTimeout samplePrevious) ≠ ""
  ∧ parseWaitTimeout sampleParseDuration samplePrevious = 3 * Minute.
Proof.
  split; [discriminate|].
  apply (parseWaitTimeout_total sampleParseDuration samplePrevious);
    [discriminate | reflexivity].
Defined.

Example parseWaitTimeout_samples :
  map (λ s, parseWaitTimeout sampleParseDuration (withTriggers
              {| ID := StringNull; EnvironmentID := StringNull; ProjectID := StringNull;
                 Pull := BoolNull; ForceRecreate := BoolNull; RemoveOrphans := BoolNull;
                 StopOnDelete := BoolNull; Triggers := MapNull; WaitTimeout := s;
                 Status := StringNull; LastDeployedAt := StringNull |} MapNull))
    [StringNull; StringValue ""; StringValue "soon"; StringValue "30s";
     StringValue "0"; StringValue "-5s"]
  = [2 * Minute; 2 * Minute; 2 * Minute; 30 * Second; 0; -5 * Second].
Proof. vm_compute. reflexivity. Qed.

(** C2 as stated does not hold: the agent never answers, the wait of
    three minutes times out after nine probes, and [Create] returns with
    an error without any call to the up endpoint. *)
Lemma create_without_agent_never_deploys :
  ∃ diags r',
    Create sampleParseDuration sampleDurationString sampleFormatRFC3339
      40 unreachableWorld background sampleSpec startRun = Some (diags, None, r')
    ∧ HasError diags = true
    ∧ callsOf (log r') = repeat (GetProjectCall "env-1" "proj-1") 9
    ∧ ¬ (∃ req, DeployProjectCall "env-1" "proj-1" req ∈ callsOf (log r')).
Proof.
  eexists _, _. split; [vm_compute; reflexivity|].
  split; [reflexivity|]. split; [reflexivity|].
  intros [req Hin]. cbn [log callsOf] in Hin.
  repeat (apply elem_of_cons in Hin as [[=]|Hin]).
  by apply elem_of_nil in Hin.
Qed.

(** The agent answers the third probe: the call after the wait is the
    deployment, with the options of the spec. *)
Lemma create_deploys_witness :
  waitForAgent sampleDurationString 30 readyOnThirdProbe background "env-1" "proj-1"
    (parseWaitTimeout sampleParseDuration sampleSpec) startRun
    = Some (None, sampleAfterWait)
  ∧ ∃ diags st r',
      Create sampleParseDuration sampleDurationString sampleFormatRFC3339
        30 readyOnThirdProbe background sampleSpec startRun
        = Some (diags, st, r')
      ∧ (callsOf (log r') =
           callsOf (log sampleAfterWait)
           ++ [DeployProjectCall "env-1" "proj-1"
                 {| Req_Pull := true; Req_ForceRecreate := false; Req_RemoveOrphans := false |}]
         ∨ callsOf (log r') =
             callsOf (log sampleAfterWait)
             ++ [DeployProjectCall "env-1" "proj-1"
                   {| Req_Pull := true; Req_ForceRecreate := false; Req_RemoveOrphans := false |};
                 GetProjectCall "env-1" "proj-1"]).
Proof.
  assert (Hwait :
    waitForAgent sampleDurationString 30 readyOnThirdProbe background "env-1" "proj-1"
      (parseWaitTimeout sampleParseDuration sampleSpec) startRun
      = Some (None, sampleAfterWait)) by (vm_compute; reflexivity).
  split; [exact Hwait|].
  exact (proj1 (create_deploys_once_agent_reachable sampleParseDuration sampleDurationString
                  sampleFormatRFC3339 30 readyOnThirdProbe background sampleSpec startRun)
           sampleAfterWait Hwait).
Defined.


(** ** Instances of the further properties *)

(** A refresh of the sample record keeps its triggers and its
    deployment time. *)
Lemma read_changes_status_only_witness :
  ∃ data',
    (Read containersUnavailable samplePrevious startRun).1.2 = StateSet data'
    ∧ Triggers data' = Triggers samplePrevious
    ∧ LastDeployedAt data' = LastDeployedAt samplePrevious.
Proof.
  eexists. split; [reflexivity|].
  pose proof (read_changes_status_only containersUnavailable samplePrevious _ startRun
                eq_refl) as (_ & _ & _ & _ & _ & _ & _ & _ & _ & Htr & _ & Hlast).
  split; [exact Htr|exact Hlast].
Defined.

Lemma create_writes_state_witness :
  waitForAgent sampleDurationString 30 readyOnThirdProbe background "env-1" "proj-1"
    (parseWaitTimeout sampleParseDuration sampleSpec) startRun
    = Some (None, sampleAfterWait)
  ∧ ∃ r3,
      Create sampleParseDuration sampleDurationString sampleFormatRFC3339
        30 readyOnThirdProbe background sampleSpec startRun
      = Some ([], Some sampleCreated, r3).
Proof.
  assert (Hwait :
    waitForAgent sampleDurationString 30 readyOnThirdProbe background "env-1" "proj-1"
      (parseWaitTimeout sampleParseDuration sampleSpec) startRun
      = Some (None, sampleAfterWait)) by (vm_compute; reflexivity).
  split; [exact Hwait|].
  exact (create_writes_state_after_deploy_and_read sampleParseDuration sampleDurationString
           sampleFormatRFC3339 30 readyOnThirdProbe background sampleSpec startRun
           sampleAfterWait Hwait).
Defined.

(** Three minutes against an agent that never answers: eight sleeps,
    185 seconds in all, and nine probes. *)
Lemma wait_sleeps_at_most_witness :
  ∃ res r',
    waitForAgent sampleDurationString 40 unreachableWorld background
      "env-1" "proj-1" (3 * Minute) startRun = Some (res, r')
    ∧ totalSlept (log r') - totalSlept (log startRun) ≤ 3 * Minute + 30 * Second.
Proof.
  eexists _, _.
  edestruct (wait_sleeps_at_most_timeout_and_cap sampleDurationString 40 unreachableWorld
               background "env-1" "proj-1" (3 * Minute) startRun)
    as (Hbound & _ & _); [vm_compute; reflexivity|].
  split; [vm_compute; reflexivity|]. apply Hbound. vm_compute. discriminate.
Defined.

Lemma wait_probes_are_bounded_witness :
  ∃ res r' n,
    waitForAgent sampleDurationString 40 unreachableWorld background
      "env-1" "proj-1" (3 * Minute) startRun = Some (res, r')
    ∧ callsOf (log r') =
        callsOf (log startRun) ++ repeat (GetProjectCall "env-1" "proj-1") n
    ∧ Z.of_nat n ≤ 3 * Minute / (5 * Second) + 2.
Proof.
  eexists _, _.
  edestruct (wait_probes_are_bounded sampleDurationString 40 unreachableWorld
               background "env-1" "proj-1" (3 * Minute) startRun)
    as (n & Hcalls & _ & Hbound & _); [vm_compute; reflexivity|].
  exists n. split; [vm_compute; reflexivity|]. split; [exact Hcalls|].
  apply Hbound. vm_compute. discriminate.
Defined.

Lemma wait_zero_timeout_witness :
  ∃ res r' Δ,
    waitForAgent sampleDurationString 3 unreachableWorld background
      "env-1" "proj-1" 0 startRun = Some (res, r')
    ∧ log r' =
        log startRun ++ (clock startRun, Called (GetProjectCall "env-1" "proj-1") 0)
                     :: (clock startRun, Slept (5 * Second)) :: Δ.
Proof.
  eexists _, _.
  edestruct (wait_zero_timeout_still_sleeps sampleDurationString 3 unreachableWorld
               background "env-1" "proj-1" startRun (APIError 503 "agent offline" ""))
    as (Δ & Hlog & _);
    [reflexivity | reflexivity | reflexivity | vm_compute; reflexivity |].
  exists Δ. split; [vm_compute; reflexivity|exact Hlog].
Defined.

Lemma nextBackoff_witness :
  5 * Second ≤ 10 * Second ≤ 30 * Second
  ∧ nextBackoff (10 * Second) = Z.min (2 * (10 * Second)) (30 * Second).
Proof.
  assert (H : 5 * Second ≤ 10 * Second ≤ 30 * Second) by (vm_compute; split; discriminate).
  split; [exact H|].
  apply (nextBackoff_doubles_up_to_cap (10 * Second) H).
Defined.

(** No container call is answered: the lookup says "not found". *)
Lemma container_by_name_hides_witness :
  (GetContainerByName unreachableWorld "env-1" "postgres" (inl sampleProjects) startRun).1 =
    inr (APIError 404 "container not found" "").
Proof.
  apply (container_by_name_hides_fetch_errors unreachableWorld "env-1" "postgres"
           sampleProjects startRun).
  intros n projectID. exists (errorString "request failed"). reflexivity.
Defined.

(** The 404 page of a proxy is not a not-found error of the client. *)
Lemma do_error_status_witness :
  buildRequest string sampleMarshal sampleQueryEncode sampleNewRequest
    sampleClient sampleStopRequest = inl sampleStopHTTPRequest
  ∧ ∃ e,
      Do string string sampleMarshal sampleUnmarshal sampleUnmarshalAPIError
        sampleQueryEncode sampleNewRequest proxyNotFound sampleClient sampleStopRequest
      = (Some e, None)
      ∧ As_APIError e = None.
Proof.
  assert (Hbuild :
    buildRequest string sampleMarshal sampleQueryEncode sampleNewRequest
      sampleClient sampleStopRequest = inl sampleStopHTTPRequest)
    by (vm_compute; reflexivity).
  split; [exact Hbuild|].
  destruct (do_error_status_classification string string sampleMarshal sampleUnmarshal
              sampleUnmarshalAPIError sampleQueryEncode sampleNewRequest proxyNotFound
              sampleClient sampleStopRequest sampleStopHTTPRequest 404
              "404 page not found" Hbuild eq_refl ltac:(vm_compute; discriminate))
    as (e & Hdo & _ & Hplain & _).
  exists e. split; [exact Hdo|].
  apply (Hplain (errorString "invalid character in error body")). reflexivity.
Defined.

Lemma do_sends_api_key_witness :
  buildRequest string sampleMarshal sampleQueryEncode sampleNewRequest
    sampleClient sampleStopRequest = inl sampleStopHTTPRequest
  ∧ HTTP_Header sampleStopHTTPRequest !! "X-API-Key" = Some "arc_sample".
Proof.
  assert (Hbuild :
    buildRequest string sampleMarshal sampleQueryEncode sampleNewRequest
      sampleClient sampleStopRequest = inl sampleStopHTTPRequest)
    by (vm_compute; reflexivity).
  split; [exact Hbuild|].
  pose proof (do_sends_api_key_iff_set string sampleMarshal sampleQueryEncode
                sampleNewRequest sampleClient sampleStopRequest sampleStopHTTPRequest
                Hbuild) as (_ & _ & _ & Hkey & _).
  exact Hkey.
Defined.

Lemma status_read_stops_witness :
  (ProjectStatusDataSource_Read unreachableWorld sampleStatusConfig startRun).1 =
    ([AddError "Failed to read project status" "API error (status 503): agent offline"],
     None).
Proof.
  apply (status_read_stops_without_project unreachableWorld sampleStatusConfig startRun
           (APIError 503 "agent offline" "")).
  reflexivity.
Defined.
